(** * Runway tool adapters

    A shallow embedding of the tool handlers under [tools/runway-api/]
    (one [executeFunction] and one [apiTool] per tool) and of the tool
    catalogue [toolPaths], followed by the properties of the uniform
    result envelope that the handlers return.

    The handlers are JavaScript [async] functions.  They are embedded as
    programs of a small monad that threads the observable effects (the
    calls made on the vendor client and the lines written with
    [console.error]) and that has the three ways a JavaScript statement
    completes: normally, by [return], or by [throw].

    Each [executeFunction] keeps the order of the statements of its source.
    Its blocks are given names, so that the properties can speak of them:
    [validate] for the checks under "Validate required parameters" and
    "Validate reference images", [params] for the destructured arguments and
    the block "Prepare the request parameters", [respond] for the statement
    that returns the success envelope, and [catch] for the [catch] block.

    An [executeFunction] below takes the arguments object.  The parameter
    list of the source, which destructures whatever value the function is
    called with, is [call] in the catalogue. *)

From Stdlib Require Import ZArith List String Ascii Bool Lia.
From Stdlib Require Import DecimalString DecimalNat.
Import ListNotations.
Local Open Scope string_scope.
Set Warnings "-register-all".

(** ** JavaScript values *)

Module JS.

(** Numbers are the integers and [NaN]; the fractional and the infinite
    numbers of the runtime are not represented. *)
Inductive number : Type :=
| NaN
| Num (z : Z).

(** The values that reach a handler: the arguments object, the objects the
    vendor client answers with and the values it throws.  A string is a
    sequence of 8-bit characters.  An object is its list of own properties
    in insertion order. *)
Inductive value : Type :=
| VUndefined
| VNull
| VBool (b : bool)
| VNum (n : number)
| VStr (s : string)
| VArr (elems : list value)
| VObj (fields : list (string * value)).

Definition object : Type := list (string * value).

(** [own k o]: the own property [k] of [o], if it has one. *)
Fixpoint own (k : string) (o : object) : option value :=
  match o with
  | [] => None
  | (k', v) :: o' => if String.eqb k' k then Some v else own k o'
  end.

(** [o.k] on an object: a missing property reads as [undefined]. *)
Definition get_field (o : object) (k : string) : value :=
  match own k o with
  | Some v => v
  | None => VUndefined
  end.

(** [o.k = v]: replaces the property in place or adds it at the end. *)
Fixpoint set_field (k : string) (v : value) (o : object) : object :=
  match o with
  | [] => [(k, v)]
  | (k', v') :: o' =>
      if String.eqb k' k then (k, v) :: o' else (k', v') :: set_field k v o'
  end.

(** ToBoolean. *)
Definition ToBoolean (v : value) : bool :=
  match v with
  | VUndefined | VNull => false
  | VBool b => b
  | VNum NaN => false
  | VNum (Num z) => negb (Z.eqb z 0)
  | VStr s => negb (String.eqb s "")
  | VArr _ | VObj _ => true
  end.

Definition nullish (v : value) : bool :=
  match v with
  | VUndefined | VNull => true
  | _ => false
  end.

(** [a === b].  Arrays and objects are equal only to themselves (by
    identity); every use in the handlers has a primitive literal on the
    right, for which the answer is [false]. *)
Definition strict_equals (a b : value) : bool :=
  match a, b with
  | VUndefined, VUndefined => true
  | VNull, VNull => true
  | VBool x, VBool y => Bool.eqb x y
  | VNum (Num x), VNum (Num y) => Z.eqb x y
  | VStr x, VStr y => String.eqb x y
  | _, _ => false
  end.

Definition isArray (v : value) : bool :=
  match v with
  | VArr _ => true
  | _ => false
  end.

(** The decimal spelling of an array index, as in [`${i}`] and in the
    property key of [a[i]]. *)
Definition index_key (i : nat) : string :=
  NilEmpty.string_of_uint (Nat.to_uint i).

Definition index_of_key (k : string) (len : nat) : option nat :=
  find (fun i => String.eqb (index_key i) k) (seq 0 len).

(** [v.k] for a [v] that is neither [undefined] nor [null]. *)
Definition get_property (v : value) (k : string) : value :=
  match v with
  | VObj o => get_field o k
  | VArr l =>
      if String.eqb k "length" then VNum (Num (Z.of_nat (List.length l)))
      else match index_of_key k (List.length l) with
           | Some i => nth i l VUndefined
           | None => VUndefined
           end
  | VStr s =>
      if String.eqb k "length" then VNum (Num (Z.of_nat (String.length s)))
      else match index_of_key k (String.length s) with
           | Some i => match String.get i s with
                       | Some c => VStr (String c "")
                       | None => VUndefined
                       end
           | None => VUndefined
           end
  | _ => VUndefined
  end.

(** [v?.k] *)
Definition optional_get (v : value) (k : string) : value :=
  if nullish v then VUndefined else get_property v k.

(** [String.prototype.includes] *)
Fixpoint includes (needle hay : string) : bool :=
  if prefix needle hay then true
  else match hay with
       | EmptyString => false
       | String _ hay' => includes needle hay'
       end.

(** The [TypeError] the runtime throws; the wording is the engine's. *)
Definition TypeError (message : string) : value :=
  VObj [("name", VStr "TypeError"); ("message", VStr message)].

(** ToNumber.  [coerce] is the runtime's conversion of strings
    (StringToNumber) and of arrays and objects (ToPrimitive first). *)
Definition ToNumber (coerce : value -> number) (v : value) : number :=
  match v with
  | VUndefined => NaN
  | VNull => Num 0
  | VBool true => Num 1
  | VBool false => Num 0
  | VNum n => n
  | VStr _ | VArr _ | VObj _ => coerce v
  end.

(** [a < b] on numbers: false whenever an operand is [NaN]. *)
Definition number_lt (a b : number) : bool :=
  match a, b with
  | Num x, Num y => Z.ltb x y
  | _, _ => false
  end.

(** [Math.min] of two numbers. *)
Definition number_min (a b : number) : number :=
  match a, b with
  | Num x, Num y => Num (Z.min x y)
  | _, _ => NaN
  end.

End JS.

Export JS.

(** ** The vendor client and the process environment *)

Module Sdk.

(** The operations of the [@runwayml/sdk] client that the handlers use.
    [c.create(params).waitForTaskOutput()] is one operation: it answers
    with the finished task or throws. *)
Inductive endpoint : Type :=
| textToImage
| textToVideo
| imageToVideo
| videoToVideo
| videoUpscale
| tasks_retrieve
| tasks_cancel
| tasks_list.

(** What awaiting a client operation gives. *)
Inductive outcome : Type :=
| Resolves (v : value)
| Rejects (e : value).

(** What a handler reads from outside: [process.env.RUNWAY_API_KEY], the
    (mock) vendor behind the client, the clock behind
    [new Date().toISOString()] and the runtime's number conversion.  The
    dynamic [import('@runwayml/sdk')] and [new RunwayML({ apiKey })] with a
    non-empty key are taken to succeed. *)
Record world : Type := {
  RUNWAY_API_KEY : option string;
  vendor : endpoint -> value -> outcome;
  now_ISO : string;
  coerce : value -> number
}.

Definition process_env_RUNWAY_API_KEY (w : world) : value :=
  match RUNWAY_API_KEY w with
  | Some s => VStr s
  | None => VUndefined
  end.

End Sdk.

Export Sdk.

(** ** Effects *)

Module Eff.

(** What a caller can observe besides the result. *)
Record state : Type := {
  calls : list (endpoint * value);
  console : list (string * value)
}.

Definition initial : state := {| calls := []; console := [] |}.

(** The state after one more call on the client, and after one more line
    on the console. *)
Definition called (s : state) (ep : endpoint) (arg : value) : state :=
  {| calls := calls s ++ [(ep, arg)]; console := console s |}.

Definition logged (s : state) (label : string) (error : value) : state :=
  {| calls := calls s; console := console s ++ [(label, error)] |}.

(** How a statement completes. *)
Inductive completion (A : Type) : Type :=
| Normal (a : A)
| Return (v : value)
| Throw (e : value).

Arguments Normal {A} a.
Arguments Return {A} v.
Arguments Throw {A} e.

Definition M (A : Type) : Type := state -> state * completion A.

Definition ret {A} (a : A) : M A := fun s => (s, Normal a).

Definition bind {A B} (m : M A) (k : A -> M B) : M B :=
  fun s =>
    match m s with
    | (s', Normal a) => k a s'
    | (s', Return v) => (s', Return v)
    | (s', Throw e) => (s', Throw e)
    end.

(** [return v;] *)
Definition return_ {A} (v : value) : M A := fun s => (s, Return v).

(** [throw e;] *)
Definition throw {A} (e : value) : M A := fun s => (s, Throw e).

(** [try { body } catch (error) { handler }] *)
Definition try_catch {A} (body : M A) (handler : value -> M A) : M A :=
  fun s =>
    match body s with
    | (s', Throw e) => handler e s'
    | r => r
    end.

(** [if (c) stmt] *)
Definition when (c : bool) (stmt : M unit) : M unit :=
  if c then stmt else ret tt.

(** [v.k]: throws on [undefined] and [null]. *)
Definition GetV (v : value) (k : string) : M value :=
  match v with
  | VUndefined =>
      throw (TypeError ("Cannot read properties of undefined (reading '" ++ k ++ "')"))
  | VNull =>
      throw (TypeError ("Cannot read properties of null (reading '" ++ k ++ "')"))
  | _ => ret (get_property v k)
  end.

(** [await client.<endpoint>(arg)]: the call is recorded, then the vendor's
    answer is returned or thrown. *)
Definition await_client (w : world) (ep : endpoint) (arg : value) : M value :=
  fun s =>
    match vendor w ep arg with
    | Resolves v => (called s ep arg, Normal v)
    | Rejects e => (called s ep arg, Throw e)
    end.

(** [console.error(label, error)] *)
Definition console_error (label : string) (error : value) : M unit :=
  fun s => (logged s label error, Normal tt).

(** [for (let i = from; i < from + count; i++) body(i)] *)
Fixpoint for_range (from count : nat) (body : nat -> M unit) : M unit :=
  match count with
  | O => ret tt
  | S count' => bind (body from) (fun _ => for_range (S from) count' body)
  end.

(** The callback of [Array.prototype.map] applied left to right. *)
Fixpoint mapM (cb : value -> M value) (l : list value) : M (list value) :=
  match l with
  | [] => ret []
  | x :: l' =>
      bind (cb x) (fun y => bind (mapM cb l') (fun ys => ret (y :: ys)))
  end.

(** How the promise of an [async] function settles. *)
Inductive settled : Type :=
| Fulfilled (v : value)
| Rejected (e : value).

Definition async (body : M unit) : state -> state * settled :=
  fun s =>
    match body s with
    | (s', Normal _) => (s', Fulfilled VUndefined)
    | (s', Return v) => (s', Fulfilled v)
    | (s', Throw e) => (s', Rejected e)
    end.

End Eff.

Export Eff.

Notation "x <- m ;; k" := (bind m (fun x => k))
  (at level 61, m at next level, right associativity).
Notation "m ;; k" := (bind m (fun _ => k))
  (at level 61, right associativity).

(** A parameter with a default: the default applies to [undefined] only. *)
Definition param (args : object) (k : string) (default : value) : value :=
  match get_field args k with
  | VUndefined => default
  | v => v
  end.

Definition missing_key_envelope : value :=
  VObj [("success", VBool false);
        ("error", VStr "RUNWAY_API_KEY environment variable is not set.")].

(** ** Tool definitions *)

(** The part of a JSON schema property that the tools declare. *)
Record property : Type := {
  name : string;
  type : string;
  enum : option (list string);
  default : option value;
  minimum : option Z;
  maximum : option Z;
  minItems : option nat;
  maxItems : option nat;
  items_required : list string
}.

Definition prop (n t : string) : property :=
  {| name := n; type := t; enum := None; default := None;
     minimum := None; maximum := None; minItems := None; maxItems := None;
     items_required := [] |}.

Definition prop_enum (n : string) (values : list string) (d : option string) : property :=
  {| name := n; type := "string"; enum := Some values;
     default := option_map VStr d;
     minimum := None; maximum := None; minItems := None; maxItems := None;
     items_required := [] |}.

Definition prop_range (n t : string) (lo hi : Z) (d : option Z) : property :=
  {| name := n; type := t; enum := None;
     default := option_map (fun z => VNum (Num z)) d;
     minimum := Some lo; maximum := Some hi; minItems := None; maxItems := None;
     items_required := [] |}.

Definition prop_array (n : string) (lo hi : option nat) (req : list string) : property :=
  {| name := n; type := "array"; enum := None; default := None;
     minimum := None; maximum := None; minItems := lo; maxItems := hi;
     items_required := req |}.

Record definition : Type := {
  function_name : string;
  properties : list property;
  required : list string
}.

Record tool : Type := {
  function : world -> object -> state -> state * settled;
  definition_of : definition
}.

(** ** Reference images

    The loop that [generate-image-with-references.js] and
    [generate-video-from-video.js] both run over [referenceImages]:
    [for (let i = 0; i < referenceImages.length; i++)] with the body below.
    Nothing in the loop changes [referenceImages], so the bound is read
    once and the number of rounds is fixed on entry. *)

Definition rounds (n : number) : nat :=
  match n with
  | Num z => Z.to_nat z
  | NaN => O
  end.

Definition uri_error (i : nat) : value :=
  VObj [("success", VBool false);
        ("error", VStr ("Reference image at index " ++ index_key i
                        ++ " must have a 'uri' property"))].

(** The body of the loop. *)
Definition check_reference_image (referenceImages : value) (i : nat) : M unit :=
  img <- GetV referenceImages (index_key i) ;;
  uri <- GetV img "uri" ;;
  when (negb (ToBoolean uri)) (return_ (uri_error i)).

Definition check_reference_images (w : world) (referenceImages : value) : M unit :=
  length <- GetV referenceImages "length" ;;
  for_range 0 (rounds (ToNumber (coerce w) length))
    (check_reference_image referenceImages).

(** [task.output && task.output[0] ? task.output[0] : null] *)
Definition first_output (output : value) : M value :=
  if ToBoolean output
  then (first <- GetV output (index_key 0) ;;
        if ToBoolean first then GetV output (index_key 0) else ret VNull)
  else ret VNull.

(** The [catch] block of the six generation tools, which differ in the
    three strings only. *)
Definition generation_catch (label failed generic : string) (error : value) : M unit :=
  console_error label error ;;
  name <- GetV error "name" ;;
  if strict_equals name (VStr "TaskFailedError")
  then (details <- GetV error "taskDetails" ;;
        taskDetails <- GetV error "taskDetails" ;;
        return_ (VObj [("success", VBool false);
                       ("error", VStr failed);
                       ("details", details);
                       ("taskId", optional_get taskDetails "id")]))
  else (message <- GetV error "message" ;;
        return_ (VObj [("success", VBool false);
                       ("error", VStr generic);
                       ("message", message)])).

(** [if (seed !== undefined) params.seed = seed;] *)
Definition add_seed (seed : value) (params : object) : object :=
  if negb (strict_equals seed VUndefined) then set_field "seed" seed params
  else params.

(** [if (v) params.k = v;] *)
Definition add_if_truthy (k : string) (v : value) (params : object) : object :=
  if ToBoolean v then set_field k v params else params.

Definition required_error (parameter : string) : value :=
  VObj [("success", VBool false);
        ("error", VStr (parameter ++ " is required"))].

Definition ratios_video : list string :=
  ["1280:720"; "720:1280"; "1024:1024"; "1920:1080"; "1080:1920"].

Definition ratios_image : list string :=
  ["1920:1080"; "1080:1920"; "1024:1024"; "1280:720"; "720:1280";
   "1536:640"; "640:1536"].

(** ** tools/runway-api/generate-image.js *)

Module GenerateImage.

(** The destructured arguments and the block "Prepare the request
    parameters". *)
Definition params (args : object) : object :=
  let promptText := get_field args "promptText" in
  let model := param args "model" (VStr "gen4_image") in
  let ratio := param args "ratio" (VStr "1920:1080") in
  let seed := get_field args "seed" in
  let style := get_field args "style" in
  let params := [("model", model); ("promptText", promptText); ("ratio", ratio)] in
  let params := add_seed seed params in
  let params := add_if_truthy "style" style params in
  params.

(** The statement [return { success: true, ... }] for the finished task. *)
Definition respond (task : value) : M unit :=
  id <- GetV task "id" ;;
  status <- GetV task "status" ;;
  output <- GetV task "output" ;;
  imageUrl <- first_output output ;;
  createdAt <- GetV task "createdAt" ;;
  model <- GetV task "model" ;;
  promptText <- GetV task "promptText" ;;
  ratio <- GetV task "ratio" ;;
  return_ (VObj [("success", VBool true);
                 ("taskId", id);
                 ("status", status);
                 ("output", output);
                 ("imageUrl", imageUrl);
                 ("createdAt", createdAt);
                 ("model", model);
                 ("promptText", promptText);
                 ("ratio", ratio)]).

Definition executeFunction (w : world) (args : object) : state -> state * settled :=
  async (try_catch
    (let apiKey := process_env_RUNWAY_API_KEY w in
     when (negb (ToBoolean apiKey)) (return_ missing_key_envelope) ;;
     task <- await_client w textToImage (VObj (params args)) ;;
     respond task)
    (generation_catch "Error generating image:"
       "Image generation task failed"
       "An error occurred while generating the image")).

Definition apiTool : tool := {|
  function := executeFunction;
  definition_of := {|
    function_name := "GenerateImage";
    properties :=
      [prop "promptText" "string";
       prop_enum "model" ["gen4_image"] (Some "gen4_image");
       prop_enum "ratio" ratios_image (Some "1920:1080");
       prop_range "seed" "integer" 0 2147483647 None;
       prop_enum "style" ["photorealistic"; "cinematic"; "artistic";
                          "illustration"; "concept_art"] None];
    required := ["promptText"]
  |}
|}.

End GenerateImage.

(** ** tools/runway-api/generate-image-with-references.js *)

Module GenerateImageWithReferences.

Definition validate (w : world) (args : object) : M unit :=
  let referenceImages := get_field args "referenceImages" in
  when (negb (isArray referenceImages)
        || strict_equals (get_property referenceImages "length") (VNum (Num 0)))
       (return_ (VObj [("success", VBool false);
                       ("error", VStr "referenceImages must be a non-empty array")])) ;;
  check_reference_images w referenceImages.

Definition params (args : object) : object :=
  let promptText := get_field args "promptText" in
  let referenceImages := get_field args "referenceImages" in
  let model := param args "model" (VStr "gen4_image") in
  let ratio := param args "ratio" (VStr "1920:1080") in
  let seed := get_field args "seed" in
  let params := [("model", model); ("promptText", promptText);
                 ("ratio", ratio); ("referenceImages", referenceImages)] in
  let params := add_seed seed params in
  params.

(** The statement [return { success: true, ... }] for the finished task. *)
Definition respond (task : value) : M unit :=
  id <- GetV task "id" ;;
  status <- GetV task "status" ;;
  output <- GetV task "output" ;;
  imageUrl <- first_output output ;;
  createdAt <- GetV task "createdAt" ;;
  model <- GetV task "model" ;;
  promptText <- GetV task "promptText" ;;
  ratio <- GetV task "ratio" ;;
  referenceImages <- GetV task "referenceImages" ;;
  return_ (VObj [("success", VBool true);
                 ("taskId", id);
                 ("status", status);
                 ("output", output);
                 ("imageUrl", imageUrl);
                 ("createdAt", createdAt);
                 ("model", model);
                 ("promptText", promptText);
                 ("ratio", ratio);
                 ("referenceImages", referenceImages)]).

Definition executeFunction (w : world) (args : object) : state -> state * settled :=
  async (try_catch
    (validate w args ;;
     let apiKey := process_env_RUNWAY_API_KEY w in
     when (negb (ToBoolean apiKey)) (return_ missing_key_envelope) ;;
     task <- await_client w textToImage (VObj (params args)) ;;
     respond task)
    (generation_catch "Error generating image with references:"
       "Image generation task failed"
       "An error occurred while generating the image with references")).

Definition apiTool : tool := {|
  function := executeFunction;
  definition_of := {|
    function_name := "GenerateImageWithReferences";
    properties :=
      [prop "promptText" "string";
       prop_array "referenceImages" (Some 1%nat) (Some 4%nat) ["uri"];
       prop_enum "model" ["gen4_image"] (Some "gen4_image");
       prop_enum "ratio" ratios_image (Some "1920:1080");
       prop_range "seed" "integer" 0 2147483647 None];
    required := ["promptText"; "referenceImages"]
  |}
|}.

End GenerateImageWithReferences.

(** ** tools/runway-api/generate-video-from-text.js *)

Module GenerateVideoFromText.

Definition params (args : object) : object :=
  let promptText := get_field args "promptText" in
  let model := param args "model" (VStr "gen4_turbo") in
  let ratio := param args "ratio" (VStr "1280:720") in
  let duration := param args "duration" (VNum (Num 5)) in
  let seed := get_field args "seed" in
  let params := [("model", model); ("promptText", promptText);
                 ("ratio", ratio); ("duration", duration)] in
  let params := add_seed seed params in
  params.

(** The statement [return { success: true, ... }] for the finished task. *)
Definition respond (task : value) : M unit :=
  id <- GetV task "id" ;;
  status <- GetV task "status" ;;
  output <- GetV task "output" ;;
  videoUrl <- first_output output ;;
  createdAt <- GetV task "createdAt" ;;
  model <- GetV task "model" ;;
  promptText <- GetV task "promptText" ;;
  ratio <- GetV task "ratio" ;;
  duration <- GetV task "duration" ;;
  return_ (VObj [("success", VBool true);
                 ("taskId", id);
                 ("status", status);
                 ("output", output);
                 ("videoUrl", videoUrl);
                 ("createdAt", createdAt);
                 ("model", model);
                 ("promptText", promptText);
                 ("ratio", ratio);
                 ("duration", duration)]).

Definition executeFunction (w : world) (args : object) : state -> state * settled :=
  async (try_catch
    (let apiKey := process_env_RUNWAY_API_KEY w in
     when (negb (ToBoolean apiKey)) (return_ missing_key_envelope) ;;
     task <- await_client w textToVideo (VObj (params args)) ;;
     respond task)
    (generation_catch "Error generating video from text:"
       "Video generation task failed"
       "An error occurred while generating the video from text")).

Definition apiTool : tool := {|
  function := executeFunction;
  definition_of := {|
    function_name := "GenerateVideoFromText";
    properties :=
      [prop "promptText" "string";
       prop_enum "model" ["gen4_turbo"] (Some "gen4_turbo");
       prop_enum "ratio" ratios_video (Some "1280:720");
       prop_range "duration" "number" 5 10 (Some 5%Z);
       prop_range "seed" "integer" 0 2147483647 None];
    required := ["promptText"]
  |}
|}.

End GenerateVideoFromText.

(** ** tools/runway-api/generate-video-from-image.js *)

Module GenerateVideoFromImage.

Definition validate (w : world) (args : object) : M unit :=
  let promptImage := get_field args "promptImage" in
  when (negb (ToBoolean promptImage)) (return_ (required_error "promptImage")).

Definition params (args : object) : object :=
  let promptImage := get_field args "promptImage" in
  let promptText := get_field args "promptText" in
  let model := param args "model" (VStr "gen4_turbo") in
  let ratio := param args "ratio" (VStr "1280:720") in
  let duration := param args "duration" (VNum (Num 5)) in
  let seed := get_field args "seed" in
  let params := [("model", model); ("promptImage", promptImage);
                 ("ratio", ratio); ("duration", duration)] in
  let params := add_if_truthy "promptText" promptText params in
  let params := add_seed seed params in
  params.

(** The statement [return { success: true, ... }] for the finished task. *)
Definition respond (task : value) : M unit :=
  id <- GetV task "id" ;;
  status <- GetV task "status" ;;
  output <- GetV task "output" ;;
  videoUrl <- first_output output ;;
  createdAt <- GetV task "createdAt" ;;
  model <- GetV task "model" ;;
  promptImage <- GetV task "promptImage" ;;
  promptText <- GetV task "promptText" ;;
  ratio <- GetV task "ratio" ;;
  duration <- GetV task "duration" ;;
  return_ (VObj [("success", VBool true);
                 ("taskId", id);
                 ("status", status);
                 ("output", output);
                 ("videoUrl", videoUrl);
                 ("createdAt", createdAt);
                 ("model", model);
                 ("promptImage", promptImage);
                 ("promptText", promptText);
                 ("ratio", ratio);
                 ("duration", duration)]).

Definition executeFunction (w : world) (args : object) : state -> state * settled :=
  async (try_catch
    (validate w args ;;
     let apiKey := process_env_RUNWAY_API_KEY w in
     when (negb (ToBoolean apiKey)) (return_ missing_key_envelope) ;;
     task <- await_client w imageToVideo (VObj (params args)) ;;
     respond task)
    (generation_catch "Error generating video from image:"
       "Video generation task failed"
       "An error occurred while generating the video from image")).

Definition apiTool : tool := {|
  function := executeFunction;
  definition_of := {|
    function_name := "GenerateVideoFromImage";
    properties :=
      [prop "promptImage" "string";
       prop "promptText" "string";
       prop_enum "model" ["gen4_turbo"] (Some "gen4_turbo");
       prop_enum "ratio" ratios_video (Some "1280:720");
       prop_range "duration" "number" 5 10 (Some 5%Z);
       prop_range "seed" "integer" 0 2147483647 None];
    required := ["promptImage"]
  |}
|}.

End GenerateVideoFromImage.

(** ** tools/runway-api/generate-video-from-video.js *)

Module GenerateVideoFromVideo.

Definition validate (w : world) (args : object) : M unit :=
  let promptVideo := get_field args "promptVideo" in
  let promptText := get_field args "promptText" in
  let referenceImages := param args "referenceImages" (VArr []) in
  when (negb (ToBoolean promptVideo)) (return_ (required_error "promptVideo")) ;;
  when (negb (ToBoolean promptText)) (return_ (required_error "promptText")) ;;
  length <- GetV referenceImages "length" ;;
  when (number_lt (Num 0) (ToNumber (coerce w) length))
       (check_reference_images w referenceImages).

(** [length] is what [referenceImages.length] has just read. *)
Definition params (w : world) (args : object) (length : value) : object :=
  let promptVideo := get_field args "promptVideo" in
  let promptText := get_field args "promptText" in
  let referenceImages := param args "referenceImages" (VArr []) in
  let model := param args "model" (VStr "gen4_turbo") in
  let ratio := param args "ratio" (VStr "1280:720") in
  let duration := param args "duration" (VNum (Num 5)) in
  let seed := get_field args "seed" in
  let params := [("model", model); ("promptVideo", promptVideo);
                 ("promptText", promptText); ("ratio", ratio);
                 ("duration", duration)] in
  let params := if number_lt (Num 0) (ToNumber (coerce w) length)
                then set_field "referenceImages" referenceImages params
                else params in
  let params := add_seed seed params in
  params.

(** The statement [return { success: true, ... }] for the finished task. *)
Definition respond (task : value) : M unit :=
  id <- GetV task "id" ;;
  status <- GetV task "status" ;;
  output <- GetV task "output" ;;
  videoUrl <- first_output output ;;
  createdAt <- GetV task "createdAt" ;;
  model <- GetV task "model" ;;
  promptVideo <- GetV task "promptVideo" ;;
  promptText <- GetV task "promptText" ;;
  referenceImages <- GetV task "referenceImages" ;;
  ratio <- GetV task "ratio" ;;
  duration <- GetV task "duration" ;;
  return_ (VObj [("success", VBool true);
                 ("taskId", id);
                 ("status", status);
                 ("output", output);
                 ("videoUrl", videoUrl);
                 ("createdAt", createdAt);
                 ("model", model);
                 ("promptVideo", promptVideo);
                 ("promptText", promptText);
                 ("referenceImages", referenceImages);
                 ("ratio", ratio);
                 ("duration", duration)]).

Definition executeFunction (w : world) (args : object) : state -> state * settled :=
  let referenceImages := param args "referenceImages" (VArr []) in
  async (try_catch
    (validate w args ;;
     let apiKey := process_env_RUNWAY_API_KEY w in
     when (negb (ToBoolean apiKey)) (return_ missing_key_envelope) ;;
     length <- GetV referenceImages "length" ;;
     task <- await_client w videoToVideo (VObj (params w args length)) ;;
     respond task)
    (generation_catch "Error generating video from video:"
       "Video-to-video generation task failed"
       "An error occurred while generating the video from video")).

Definition apiTool : tool := {|
  function := executeFunction;
  definition_of := {|
    function_name := "GenerateVideoFromVideo";
    properties :=
      [prop "promptVideo" "string";
       prop "promptText" "string";
       prop_array "referenceImages" None (Some 4%nat) ["uri"];
       prop_enum "model" ["gen4_turbo"] (Some "gen4_turbo");
       prop_enum "ratio" ratios_video (Some "1280:720");
       prop_range "duration" "number" 5 10 (Some 5%Z);
       prop_range "seed" "integer" 0 2147483647 None];
    required := ["promptVideo"; "promptText"]
  |}
|}.

End GenerateVideoFromVideo.

(** ** tools/runway-api/upscale-video.js *)

Module UpscaleVideo.

Definition validate (w : world) (args : object) : M unit :=
  let promptVideo := get_field args "promptVideo" in
  when (negb (ToBoolean promptVideo)) (return_ (required_error "promptVideo")).

Definition params (args : object) : object :=
  let promptVideo := get_field args "promptVideo" in
  let model := param args "model" (VStr "upscale_video") in
  [("model", model); ("promptVideo", promptVideo)].

(** The statement [return { success: true, ... }] for the finished task. *)
Definition respond (task : value) : M unit :=
  id <- GetV task "id" ;;
  status <- GetV task "status" ;;
  output <- GetV task "output" ;;
  videoUrl <- first_output output ;;
  createdAt <- GetV task "createdAt" ;;
  model <- GetV task "model" ;;
  promptVideo <- GetV task "promptVideo" ;;
  return_ (VObj [("success", VBool true);
                 ("taskId", id);
                 ("status", status);
                 ("output", output);
                 ("videoUrl", videoUrl);
                 ("createdAt", createdAt);
                 ("model", model);
                 ("promptVideo", promptVideo)]).

Definition executeFunction (w : world) (args : object) : state -> state * settled :=
  async (try_catch
    (validate w args ;;
     let apiKey := process_env_RUNWAY_API_KEY w in
     when (negb (ToBoolean apiKey)) (return_ missing_key_envelope) ;;
     task <- await_client w videoUpscale (VObj (params args)) ;;
     respond task)
    (generation_catch "Error upscaling video:"
       "Video upscaling task failed"
       "An error occurred while upscaling the video")).

Definition apiTool : tool := {|
  function := executeFunction;
  definition_of := {|
    function_name := "UpscaleVideo";
    properties :=
      [prop "promptVideo" "string";
       prop_enum "model" ["upscale_video"] (Some "upscale_video")];
    required := ["promptVideo"]
  |}
|}.

End UpscaleVideo.

(** ** tools/runway-api/get-task-status.js *)

Module GetTaskStatus.

Definition validate (w : world) (args : object) : M unit :=
  let taskId := get_field args "taskId" in
  when (negb (ToBoolean taskId)) (return_ (required_error "taskId")).

Definition not_found (taskId : value) : value :=
  VObj [("success", VBool false);
        ("error", VStr "Task not found");
        ("taskId", taskId)].

Definition generic (message taskId : value) : value :=
  VObj [("success", VBool false);
        ("error", VStr "An error occurred while retrieving the task status");
        ("message", message);
        ("taskId", taskId)].

(** The [catch] block. *)
Definition catch (taskId error : value) : M unit :=
  console_error "Error retrieving task status:" error ;;
  status <- GetV error "status" ;;
  if strict_equals status (VNum (Num 404))
  then return_ (not_found taskId)
  else (message <- GetV error "message" ;;
        return_ (generic message taskId)).

(** The statement [return { success: true, ... }] for the finished task. *)
Definition respond (task : value) : M unit :=
  id <- GetV task "id" ;;
  status <- GetV task "status" ;;
  createdAt <- GetV task "createdAt" ;;
  updatedAt <- GetV task "updatedAt" ;;
  output <- GetV task "output" ;;
  failureReason <- GetV task "failureReason" ;;
  model <- GetV task "model" ;;
  promptText <- GetV task "promptText" ;;
  promptImage <- GetV task "promptImage" ;;
  ratio <- GetV task "ratio" ;;
  duration <- GetV task "duration" ;;
  progress <- GetV task "progress" ;;
  estimatedTimeRemaining <- GetV task "estimatedTimeRemaining" ;;
  return_ (VObj [("success", VBool true);
                 ("taskId", id);
                 ("status", status);
                 ("createdAt", createdAt);
                 ("updatedAt", updatedAt);
                 ("output", output);
                 ("failureReason", failureReason);
                 ("model", model);
                 ("promptText", promptText);
                 ("promptImage", promptImage);
                 ("ratio", ratio);
                 ("duration", duration);
                 ("progress", progress);
                 ("estimatedTimeRemaining", estimatedTimeRemaining)]).

Definition executeFunction (w : world) (args : object) : state -> state * settled :=
  let taskId := get_field args "taskId" in
  async (try_catch
    (validate w args ;;
     let apiKey := process_env_RUNWAY_API_KEY w in
     when (negb (ToBoolean apiKey)) (return_ missing_key_envelope) ;;
     task <- await_client w tasks_retrieve taskId ;;
     respond task)
    (catch taskId)).

Definition apiTool : tool := {|
  function := executeFunction;
  definition_of := {|
    function_name := "GetTaskStatus";
    properties := [prop "taskId" "string"];
    required := ["taskId"]
  |}
|}.

End GetTaskStatus.

(** ** tools/runway-api/cancel-task.js *)

Module CancelTask.

Definition validate (w : world) (args : object) : M unit :=
  let taskId := get_field args "taskId" in
  when (negb (ToBoolean taskId)) (return_ (required_error "taskId")).

(** [message?.includes(needle)]: the method of strings and of arrays; on
    any other value that is not [undefined] or [null] there is no such
    method and the call throws. *)
Definition optional_includes (message : value) (needle : string) : M value :=
  match message with
  | VUndefined | VNull => ret VUndefined
  | VStr s => ret (VBool (includes needle s))
  | VArr l => ret (VBool (existsb (fun x => strict_equals x (VStr needle)) l))
  | _ => throw (TypeError "error.message?.includes is not a function")
  end.

Definition not_found (taskId : value) : value :=
  VObj [("success", VBool false);
        ("error", VStr "Task not found");
        ("taskId", taskId)].

Definition not_cancelable (taskId : value) : value :=
  VObj [("success", VBool false);
        ("error", VStr "Task cannot be canceled (may already be completed or failed)");
        ("taskId", taskId)].

Definition generic (message taskId : value) : value :=
  VObj [("success", VBool false);
        ("error", VStr "An error occurred while canceling the task");
        ("message", message);
        ("taskId", taskId)].

(** The statement [return { success: true, ... }] for the vendor's answer. *)
Definition respond (w : world) (taskId result : value) : M unit :=
  status <- GetV result "status" ;;
  canceledAt <- GetV result "canceledAt" ;;
  return_ (VObj [("success", VBool true);
                 ("taskId", taskId);
                 ("status", status);
                 ("message", VStr "Task cancellation requested");
                 ("canceledAt", if ToBoolean canceledAt then canceledAt
                                else VStr (now_ISO w))]).

(** The [catch] block. *)
Definition catch (taskId error : value) : M unit :=
  console_error "Error canceling task:" error ;;
  status <- GetV error "status" ;;
  if strict_equals status (VNum (Num 404))
  then return_ (not_found taskId)
  else (status' <- GetV error "status" ;;
        cannot <- (if strict_equals status' (VNum (Num 400))
                   then (message <- GetV error "message" ;;
                         optional_includes message "cannot be canceled")
                   else ret (VBool false)) ;;
        if ToBoolean cannot
        then return_ (not_cancelable taskId)
        else (message <- GetV error "message" ;;
              return_ (generic message taskId))).

Definition executeFunction (w : world) (args : object) : state -> state * settled :=
  let taskId := get_field args "taskId" in
  async (try_catch
    (validate w args ;;
     let apiKey := process_env_RUNWAY_API_KEY w in
     when (negb (ToBoolean apiKey)) (return_ missing_key_envelope) ;;
     result <- await_client w tasks_cancel taskId ;;
     respond w taskId result)
    (catch taskId)).

Definition apiTool : tool := {|
  function := executeFunction;
  definition_of := {|
    function_name := "CancelTask";
    properties := [prop "taskId" "string"];
    required := ["taskId"]
  |}
|}.

End CancelTask.

(** ** tools/runway-api/list-tasks.js

    Two versions of this file are in the repository.  [ListTasks] is the one
    that calls [client.tasks.list]; [ListTasksUnsupported] is the one that
    answers that the vendor has no such operation. *)

Definition list_tasks_definition : definition := {|
  function_name := "ListTasks";
  properties :=
    [prop_range "limit" "number" 1 100 (Some 10%Z);
     prop_enum "status" ["PENDING"; "RUNNING"; "SUCCEEDED"; "FAILED"; "CANCELED"] None;
     prop "cursor" "string"];
  required := []
|}.

(** Both versions destructure the arguments and prepare the request
    parameters in the same way: [{ limit: Math.min(limit, 100) }], then
    [status] and [cursor] when they are truthy. *)
Definition list_tasks_params (w : world) (args : object) : object :=
  let limit := param args "limit" (VNum (Num 10)) in
  let status := get_field args "status" in
  let cursor := get_field args "cursor" in
  let params := [("limit", VNum (number_min (ToNumber (coerce w) limit) (Num 100)))] in
  let params := add_if_truthy "status" status params in
  let params := add_if_truthy "cursor" cursor params in
  params.

Definition list_generic (message : value) : value :=
  VObj [("success", VBool false);
        ("error", VStr "An error occurred while listing tasks");
        ("message", message)].

(** The [catch] block of both versions. *)
Definition list_tasks_catch (error : value) : M unit :=
  console_error "Error listing tasks:" error ;;
  message <- GetV error "message" ;;
  return_ (list_generic message).

Module ListTasks.

(** The callback of [tasks.data.map]. *)
Definition summary (task : value) : M value :=
  id <- GetV task "id" ;;
  status <- GetV task "status" ;;
  createdAt <- GetV task "createdAt" ;;
  updatedAt <- GetV task "updatedAt" ;;
  model <- GetV task "model" ;;
  type' <- GetV task "type" ;;
  output <- GetV task "output" ;;
  promptText <- GetV task "promptText" ;;
  promptImage <- GetV task "promptImage" ;;
  failureReason <- GetV task "failureReason" ;;
  ret (VObj [("taskId", id);
             ("status", status);
             ("createdAt", createdAt);
             ("updatedAt", updatedAt);
             ("model", model);
             ("type", type');
             ("output", output);
             ("promptText", promptText);
             ("promptImage", promptImage);
             ("failureReason", failureReason)]).

(** [data.map(cb)] for a truthy [data]: only an array has the method. *)
Definition array_map (data : value) (cb : value -> M value) : M value :=
  match data with
  | VArr l => ys <- mapM cb l ;; ret (VArr ys)
  | _ => throw (TypeError "tasks.data.map is not a function")
  end.

(** The statement [return { success: true, ... }] for the vendor's answer. *)
Definition respond (tasks : value) : M unit :=
  data <- GetV tasks "data" ;;
  listed <- (if ToBoolean data then array_map data summary else ret (VArr [])) ;;
  hasMore <- GetV tasks "hasMore" ;;
  nextCursor <- GetV tasks "nextCursor" ;;
  total <- GetV tasks "total" ;;
  return_ (VObj [("success", VBool true);
                 ("tasks", listed);
                 ("hasMore", hasMore);
                 ("nextCursor", nextCursor);
                 ("total", total)]).

Definition executeFunction (w : world) (args : object) : state -> state * settled :=
  async (try_catch
    (let apiKey := process_env_RUNWAY_API_KEY w in
     when (negb (ToBoolean apiKey)) (return_ missing_key_envelope) ;;
     tasks <- await_client w tasks_list (VObj (list_tasks_params w args)) ;;
     respond tasks)
    list_tasks_catch).

Definition apiTool : tool := {|
  function := executeFunction;
  definition_of := list_tasks_definition
|}.

End ListTasks.

Module ListTasksUnsupported.

Definition unsupported : value :=
  VObj [("success", VBool false);
        ("error", VStr "Task listing not supported");
        ("message", VStr "The Runway API does not provide a list tasks endpoint. You need to track task IDs from generation responses and use GetTaskStatus to check individual tasks.");
        ("suggestion", VStr "Use GetTaskStatus with task IDs returned from generation methods (GenerateImage, GenerateVideo, etc.)")].

Definition executeFunction (w : world) (args : object) : state -> state * settled :=
  async (try_catch
    (let apiKey := process_env_RUNWAY_API_KEY w in
     when (negb (ToBoolean apiKey)) (return_ missing_key_envelope) ;;
     let params := list_tasks_params w args in
     return_ unsupported)
    list_tasks_catch).

Definition apiTool : tool := {|
  function := executeFunction;
  definition_of := list_tasks_definition
|}.

End ListTasksUnsupported.

(** ** tools/paths.js *)

Definition toolPaths : list string :=
  ["runway-api/generate-image.js";
   "runway-api/generate-image-with-references.js";
   "runway-api/generate-video-from-text.js";
   "runway-api/generate-video-from-image.js";
   "runway-api/generate-video-from-video.js";
   "runway-api/upscale-video.js";
   "runway-api/get-task-status.js";
   "runway-api/list-tasks.js";
   "runway-api/cancel-task.js"].

(** ** The catalogue *)

(** The tools, one per module above.  [OpListTasksUnsupported] is the second
    version of [list-tasks.js]. *)
Inductive operation : Type :=
| OpGenerateImage
| OpGenerateImageWithReferences
| OpGenerateVideoFromText
| OpGenerateVideoFromImage
| OpGenerateVideoFromVideo
| OpUpscaleVideo
| OpGetTaskStatus
| OpListTasks
| OpCancelTask
| OpListTasksUnsupported.

Definition apiTool_of (op : operation) : tool :=
  match op with
  | OpGenerateImage => GenerateImage.apiTool
  | OpGenerateImageWithReferences => GenerateImageWithReferences.apiTool
  | OpGenerateVideoFromText => GenerateVideoFromText.apiTool
  | OpGenerateVideoFromImage => GenerateVideoFromImage.apiTool
  | OpGenerateVideoFromVideo => GenerateVideoFromVideo.apiTool
  | OpUpscaleVideo => UpscaleVideo.apiTool
  | OpGetTaskStatus => GetTaskStatus.apiTool
  | OpListTasks => ListTasks.apiTool
  | OpCancelTask => CancelTask.apiTool
  | OpListTasksUnsupported => ListTasksUnsupported.apiTool
  end.

(** The file a tool is loaded from. *)
Definition path_of (op : operation) : string :=
  match op with
  | OpGenerateImage => "runway-api/generate-image.js"
  | OpGenerateImageWithReferences => "runway-api/generate-image-with-references.js"
  | OpGenerateVideoFromText => "runway-api/generate-video-from-text.js"
  | OpGenerateVideoFromImage => "runway-api/generate-video-from-image.js"
  | OpGenerateVideoFromVideo => "runway-api/generate-video-from-video.js"
  | OpUpscaleVideo => "runway-api/upscale-video.js"
  | OpGetTaskStatus => "runway-api/get-task-status.js"
  | OpListTasks | OpListTasksUnsupported => "runway-api/list-tasks.js"
  | OpCancelTask => "runway-api/cancel-task.js"
  end.

(** The tools that [toolPaths] names, in its order. *)
Definition registry : list operation :=
  [OpGenerateImage; OpGenerateImageWithReferences; OpGenerateVideoFromText;
   OpGenerateVideoFromImage; OpGenerateVideoFromVideo; OpUpscaleVideo;
   OpGetTaskStatus; OpListTasks; OpCancelTask].

(** The checks a handler runs on its arguments before it reads the
    credential.  Four handlers run none. *)
Definition validation (op : operation) (w : world) (args : object) : M unit :=
  match op with
  | OpGenerateImage | OpGenerateVideoFromText
  | OpListTasks | OpListTasksUnsupported => ret tt
  | OpGenerateImageWithReferences => GenerateImageWithReferences.validate w args
  | OpGenerateVideoFromImage => GenerateVideoFromImage.validate w args
  | OpGenerateVideoFromVideo => GenerateVideoFromVideo.validate w args
  | OpUpscaleVideo => UpscaleVideo.validate w args
  | OpGetTaskStatus => GetTaskStatus.validate w args
  | OpCancelTask => CancelTask.validate w args
  end.

(** The client operation a handler calls, if it calls one. *)
Definition endpoint_of (op : operation) : option endpoint :=
  match op with
  | OpGenerateImage | OpGenerateImageWithReferences => Some textToImage
  | OpGenerateVideoFromText => Some textToVideo
  | OpGenerateVideoFromImage => Some imageToVideo
  | OpGenerateVideoFromVideo => Some videoToVideo
  | OpUpscaleVideo => Some videoUpscale
  | OpGetTaskStatus => Some tasks_retrieve
  | OpListTasks => Some tasks_list
  | OpCancelTask => Some tasks_cancel
  | OpListTasksUnsupported => None
  end.

(** What a handler passes to that operation. *)
Definition request_of (op : operation) (w : world) (args : object) : value :=
  match op with
  | OpGenerateImage => VObj (GenerateImage.params args)
  | OpGenerateImageWithReferences => VObj (GenerateImageWithReferences.params args)
  | OpGenerateVideoFromText => VObj (GenerateVideoFromText.params args)
  | OpGenerateVideoFromImage => VObj (GenerateVideoFromImage.params args)
  | OpGenerateVideoFromVideo =>
      let referenceImages := param args "referenceImages" (VArr []) in
      VObj (GenerateVideoFromVideo.params w args
              (get_property referenceImages "length"))
  | OpUpscaleVideo => VObj (UpscaleVideo.params args)
  | OpGetTaskStatus | OpCancelTask => get_field args "taskId"
  | OpListTasks | OpListTasksUnsupported => VObj (list_tasks_params w args)
  end.

Definition generation : list operation :=
  [OpGenerateImage; OpGenerateImageWithReferences; OpGenerateVideoFromText;
   OpGenerateVideoFromImage; OpGenerateVideoFromVideo; OpUpscaleVideo].

(** A handler started with nothing observed yet. *)
Definition invoke (op : operation) (w : world) (args : object) : state * settled :=
  function (apiTool_of op) w args initial.

Definition result (op : operation) (w : world) (args : object) : settled :=
  snd (invoke op w args).

Definition vendor_calls (op : operation) (w : world) (args : object)
  : list (endpoint * value) :=
  calls (fst (invoke op w args)).

(** The parameter list.  Every [executeFunction] has one parameter, an
    object pattern such as [({ taskId })] or
    [({ promptText, model = 'gen4_image', ... })], which is matched against
    the argument before the body runs, and so outside [try].  Matching
    [undefined] (a call without argument) or [null] throws a [TypeError].
    Any other value is read property by property; a primitive or an array
    has none of the properties that the patterns name (lemma
    [parameters_of_other_values]), so every parameter is then [undefined],
    as for the empty object. *)
Definition destructure (argument : value) : option object :=
  match argument with
  | VUndefined | VNull => None
  | VObj args => Some args
  | VBool _ | VNum _ | VStr _ | VArr _ => Some []
  end.

(** [executeFunction(argument)].  An exception of the parameter list of an
    [async] function rejects its promise. *)
Definition call (op : operation) (w : world) (argument : value)
  : state -> state * settled :=
  match destructure argument with
  | Some args => function (apiTool_of op) w args
  | None =>
      fun s => (s, Rejected (TypeError "Cannot destructure the argument as it is undefined or null."))
  end.

(** ** Vocabulary of the properties *)

(** The credential is set: [apiKey] is truthy, a non-empty string. *)
Definition key_set (w : world) : Prop :=
  ToBoolean (process_env_RUNWAY_API_KEY w) = true.

(** The checks complete without rejecting and without throwing. *)
Definition passes (checks : M unit) : Prop :=
  forall s, checks s = (s, Normal tt).

(** An error object, as the vendor client and the runtime throw them: an
    object whose [message] is a string. *)
Definition is_error (e : value) : bool :=
  match e with
  | VObj o => match get_field o "message" with
              | VStr _ => true
              | _ => false
              end
  | _ => false
  end.

(** A thrown value that the [catch] block of [op] classifies without
    throwing in turn.  Every [catch] block reads properties of [error], so
    [error] must not be [undefined] or [null]; the block of [CancelTask]
    also calls [error.message?.includes] when [error.status === 400], so
    [message] must then be absent, a string or an array. *)
Definition catchable (op : operation) (e : value) : bool :=
  negb (nullish e)
  && match op with
     | OpCancelTask =>
         if strict_equals (get_property e "status") (VNum (Num 400))
         then match get_property e "message" with
              | VUndefined | VNull | VStr _ | VArr _ => true
              | VBool _ | VNum _ | VObj _ => false
              end
         else true
     | _ => true
     end.

(** Whatever the vendor client throws, the [catch] block of [op] can
    classify. *)
Definition vendor_throws_catchable (op : operation) (w : world) : Prop :=
  forall ep arg e, vendor w ep arg = Rejects e -> catchable op e = true.

(** The two shapes of a result envelope. *)
Definition success_shape (env : object) : Prop :=
  own "success" env = Some (VBool true) /\ own "error" env = None.

Definition failure_shape (env : object) : Prop :=
  own "success" env = Some (VBool false) /\
  exists msg, own "error" env = Some (VStr msg) /\ msg <> "".

(** The same as a test on a value. *)
Definition envelope (v : value) : bool :=
  match v with
  | VObj env =>
      match own "success" env, own "error" env with
      | Some (VBool true), None => true
      | Some (VBool false), Some (VStr msg) => negb (String.eqb msg "")
      | _, _ => false
      end
  | _ => false
  end.

(** An entry of [referenceImages] carries a [uri]. *)
Definition carries_uri (img : value) : bool :=
  ToBoolean (get_property img "uri").

(** An entry that lacks one: it is there, its [uri] is missing or empty. *)
Definition lacks_uri (img : value) : bool :=
  negb (nullish img) && negb (carries_uri img).

(** [maxItems] as the schema of [op] declares it for parameter [k]. *)
Definition declared_maxItems (op : operation) (k : string) : option nat :=
  match find (fun p => String.eqb (name p) k)
             (properties (definition_of (apiTool_of op))) with
  | Some p => maxItems p
  | None => None
  end.

(** [k] is a parameter for which the schema of [op] declares an [enum]. *)
Definition enumerated (op : operation) (k : string) : bool :=
  existsb (fun p => String.eqb (name p) k
                    && match enum p with Some _ => true | None => false end)
          (properties (definition_of (apiTool_of op))).

(** The error strings of the generation tools, by tool. *)
Definition failed_message (op : operation) : string :=
  match op with
  | OpGenerateImage | OpGenerateImageWithReferences => "Image generation task failed"
  | OpGenerateVideoFromText | OpGenerateVideoFromImage => "Video generation task failed"
  | OpGenerateVideoFromVideo => "Video-to-video generation task failed"
  | OpUpscaleVideo => "Video upscaling task failed"
  | _ => ""
  end.

Definition generic_message (op : operation) : string :=
  match op with
  | OpGenerateImage => "An error occurred while generating the image"
  | OpGenerateImageWithReferences =>
      "An error occurred while generating the image with references"
  | OpGenerateVideoFromText => "An error occurred while generating the video from text"
  | OpGenerateVideoFromImage => "An error occurred while generating the video from image"
  | OpGenerateVideoFromVideo => "An error occurred while generating the video from video"
  | OpUpscaleVideo => "An error occurred while upscaling the video"
  | OpGetTaskStatus => "An error occurred while retrieving the task status"
  | OpCancelTask => "An error occurred while canceling the task"
  | OpListTasks | OpListTasksUnsupported => "An error occurred while listing tasks"
  end.

Definition console_label (op : operation) : string :=
  match op with
  | OpGenerateImage => "Error generating image:"
  | OpGenerateImageWithReferences => "Error generating image with references:"
  | OpGenerateVideoFromText => "Error generating video from text:"
  | OpGenerateVideoFromImage => "Error generating video from image:"
  | OpGenerateVideoFromVideo => "Error generating video from video:"
  | OpUpscaleVideo => "Error upscaling video:"
  | OpGetTaskStatus => "Error retrieving task status:"
  | OpCancelTask => "Error canceling task:"
  | OpListTasks | OpListTasksUnsupported => "Error listing tasks:"
  end.

(** What a handler does with the vendor's answer. *)
Definition respond_of (op : operation) (w : world) (args : object) : value -> M unit :=
  match op with
  | OpGenerateImage => GenerateImage.respond
  | OpGenerateImageWithReferences => GenerateImageWithReferences.respond
  | OpGenerateVideoFromText => GenerateVideoFromText.respond
  | OpGenerateVideoFromImage => GenerateVideoFromImage.respond
  | OpGenerateVideoFromVideo => GenerateVideoFromVideo.respond
  | OpUpscaleVideo => UpscaleVideo.respond
  | OpGetTaskStatus => GetTaskStatus.respond
  | OpCancelTask => CancelTask.respond w (get_field args "taskId")
  | OpListTasks => ListTasks.respond
  | OpListTasksUnsupported => fun _ => return_ ListTasksUnsupported.unsupported
  end.

(** The [catch] block of a handler, for the arguments it was called with. *)
Definition catch_of (op : operation) (args : object) : value -> M unit :=
  match op with
  | OpGetTaskStatus => GetTaskStatus.catch (get_field args "taskId")
  | OpCancelTask => CancelTask.catch (get_field args "taskId")
  | OpListTasks | OpListTasksUnsupported => list_tasks_catch
  | _ => generation_catch (console_label op) (failed_message op) (generic_message op)
  end.

(** The field that holds the primary output locator. *)
Definition locator_field (op : operation) : string :=
  match op with
  | OpGenerateImage | OpGenerateImageWithReferences => "imageUrl"
  | _ => "videoUrl"
  end.

(** The fields of the task that a success envelope repeats under the
    same name. *)
Definition echoed (op : operation) : list string :=
  match op with
  | OpGenerateImage => ["status"; "output"; "createdAt"; "model"; "promptText"; "ratio"]
  | OpGenerateImageWithReferences =>
      ["status"; "output"; "createdAt"; "model"; "promptText"; "ratio"; "referenceImages"]
  | OpGenerateVideoFromText =>
      ["status"; "output"; "createdAt"; "model"; "promptText"; "ratio"; "duration"]
  | OpGenerateVideoFromImage =>
      ["status"; "output"; "createdAt"; "model"; "promptImage"; "promptText";
       "ratio"; "duration"]
  | OpGenerateVideoFromVideo =>
      ["status"; "output"; "createdAt"; "model"; "promptVideo"; "promptText";
       "referenceImages"; "ratio"; "duration"]
  | OpUpscaleVideo => ["status"; "output"; "createdAt"; "model"; "promptVideo"]
  | _ => []
  end.

(** The locator as the handlers compute it from a list of outputs: the
    first element when it is truthy, [null] otherwise. *)
Definition first_truthy (output : value) : value :=
  match output with
  | VArr (first :: _) => if ToBoolean first then first else VNull
  | _ => VNull
  end.

(** The locator read literally as "the first element of the output
    collection, or null when the output is absent or empty". *)
Definition first_or_null (output : value) : value :=
  match output with
  | VArr (first :: _) => first
  | _ => VNull
  end.

(** The output is a list, or absent. *)
Definition output_list (output : value) : bool :=
  match output with
  | VArr _ | VUndefined | VNull => true
  | _ => false
  end.

(** The vendor's answer to the call that a handler makes. *)
Definition vendor_answer (op : operation) (w : world) (args : object) : option outcome :=
  option_map (fun ep => vendor w ep (request_of op w args)) (endpoint_of op).

(** An error message contains a given text. *)
Definition mentions (message : value) (text : string) : bool :=
  match message with
  | VStr m => includes text m
  | _ => false
  end.

(** The request of the one vendor call carries [k] with the value [v]. *)
Definition forwarded (k : string) (v : value) (made : list (endpoint * value)) : Prop :=
  exists ep p, made = [(ep, VObj p)] /\ own k p = Some v.

(** A value counts as provided for an enumerated parameter: [model] and
    [ratio] have defaults that replace [undefined] only; [style] and
    [status] are added to the request when they are truthy. *)
Definition provided (k : string) (v : value) : bool :=
  if String.eqb k "model" || String.eqb k "ratio"
  then negb (strict_equals v VUndefined)
  else ToBoolean v.

(** What [ListTasks.summary] returns for a task that is there. *)
Definition summary_of (task : value) : value :=
  VObj [("taskId", get_property task "id");
        ("status", get_property task "status");
        ("createdAt", get_property task "createdAt");
        ("updatedAt", get_property task "updatedAt");
        ("model", get_property task "model");
        ("type", get_property task "type");
        ("output", get_property task "output");
        ("promptText", get_property task "promptText");
        ("promptImage", get_property task "promptImage");
        ("failureReason", get_property task "failureReason")].

(** ** Sample worlds and values

    A mock vendor that gives the same answer to every call, and the
    values that the examples below use. *)

Definition mock (key : option string) (answer : outcome) : world := {|
  RUNWAY_API_KEY := key;
  vendor := fun _ _ => answer;
  now_ISO := "2025-01-01T00:00:00.000Z";
  coerce := fun _ => NaN
|}.

Definition finished_task (output : value) : value :=
  VObj [("id", VStr "task-1");
        ("status", VStr "SUCCEEDED");
        ("createdAt", VStr "2025-01-01T00:00:00.000Z");
        ("output", output)].

Definition api_error (status : Z) (message : string) : value :=
  VObj [("name", VStr "APIError");
        ("status", VNum (Num status));
        ("message", VStr message)].

Definition task_failed_error : value :=
  VObj [("name", VStr "TaskFailedError");
        ("message", VStr "Task failed");
        ("taskDetails", VObj [("id", VStr "task-1");
                              ("status", VStr "FAILED");
                              ("failure", VStr "SAFETY.INPUT.TEXT")])].

Definition reference (uri : string) : value :=
  VObj [("uri", VStr uri)].

(** ** Reasoning about handlers *)

(** [sat m Q E]: whenever [m] completes normally its value satisfies [Q],
    whenever it returns it returns a well-formed envelope, and whenever it
    throws the thrown value satisfies [E]. *)
Definition sat {A} (m : M A) (Q : A -> Prop) (E : value -> Prop) : Prop :=
  forall s, match snd (m s) with
            | Normal a => Q a
            | Return v => envelope v = true
            | Throw e => E e
            end.

Definition anything {A} : A -> Prop := fun _ => True.

Definition nothing {A} : A -> Prop := fun _ => False.

Definition an_error : value -> Prop := fun e => is_error e = true.

Definition caught_by (op : operation) : value -> Prop :=
  fun e => catchable op e = true.

(** [quiet m]: [m] calls nothing on the client. *)
Definition quiet {A} (m : M A) : Prop :=
  forall s, calls (fst (m s)) = calls s.

(** ** Vocabulary of the further properties *)

(** [k] is a parameter that the schema of [op] declares. *)
Definition declared (op : operation) (k : string) : bool :=
  existsb (fun p => String.eqb (name p) k)
          (properties (definition_of (apiTool_of op))).

(** [default] as the schema of [op] declares it for parameter [k]. *)
Definition declared_default (op : operation) (k : string) : option value :=
  match find (fun p => String.eqb (name p) k)
             (properties (definition_of (apiTool_of op))) with
  | Some p => default p
  | None => None
  end.

(** [at_most_once c m]: [m] calls nothing on the client, or makes the one
    call [c]. *)
Definition at_most_once {A} (c : endpoint * value) (m : M A) : Prop :=
  forall s, calls (fst (m s)) = calls s
            \/ calls (fst (m s)) = (calls s ++ [c])%list.

(** [silent m]: [m] writes nothing on the console. *)
Definition silent {A} (m : M A) : Prop :=
  forall s, console (fst (m s)) = console s.

(** The values that the [try] block of a handler can throw: what the
    handler's vendor call threw, or a [TypeError] of the runtime. *)
Definition raised (op : operation) (w : world) (args : object) (e : value) : Prop :=
  (exists message, e = TypeError message)
  \/ (exists ep, endpoint_of op = Some ep
                 /\ vendor w ep (request_of op w args) = Rejects e).

(** [raises m E]: whatever [m] throws satisfies [E]. *)
Definition raises {A} (m : M A) (E : value -> Prop) : Prop :=
  forall s e, snd (m s) = Throw e -> E e.

(** How a [catch] block completes: it returns a failure envelope, or
    throws. *)
Definition reports_failure (c : completion unit) : Prop :=
  match c with
  | Normal _ => False
  | Return v => exists env, v = VObj env /\ own "success" env = Some (VBool false)
  | Throw _ => True
  end.

(** The parameters that a handler tests with [if (!parameter)] before
    anything else, in the order of the tests. *)
Definition checked : list (operation * string) :=
  [(OpGenerateVideoFromImage, "promptImage");
   (OpGenerateVideoFromVideo, "promptVideo");
   (OpGenerateVideoFromVideo, "promptText");
   (OpUpscaleVideo, "promptVideo");
   (OpGetTaskStatus, "taskId");
   (OpCancelTask, "taskId")].

(** [minimum] and [maximum] as the schema of [op] declares them for [k]. *)
Definition declared_range (op : operation) (k : string) : option (Z * Z) :=
  match find (fun p => String.eqb (name p) k)
             (properties (definition_of (apiTool_of op))) with
  | Some p => match minimum p, maximum p with
              | Some lo, Some hi => Some (lo, hi)
              | _, _ => None
              end
  | None => None
  end.

(** * Properties *)

(** ** Array indices *)

Lemma index_key_inj i j : index_key i = index_key j -> i = j.
Proof.
  unfold index_key. intros H.
  apply (f_equal NilEmpty.uint_of_string) in H.
  rewrite !NilEmpty.usu in H. injection H as H.
  apply Unsigned.to_uint_inj in H. exact H.
Qed.

Lemma index_key_not_length i : String.eqb (index_key i) "length" = false.
Proof.
  apply String.eqb_neq. unfold index_key. intros H.
  apply (f_equal NilEmpty.uint_of_string) in H.
  rewrite NilEmpty.usu in H. discriminate H.
Qed.

Lemma find_index_key i from len :
  (from <= i < from + len)%nat ->
  find (fun j => String.eqb (index_key j) (index_key i)) (seq from len) = Some i.
Proof.
  revert from. induction len as [|len IH]; intros from H; [lia|].
  simpl. destruct (String.eqb (index_key from) (index_key i)) eqn:E.
  - apply String.eqb_eq, index_key_inj in E. now subst.
  - apply IH. apply String.eqb_neq in E.
    assert (from <> i) by (intros ->; now apply E). lia.
Qed.

Lemma get_property_index l i :
  (i < List.length l)%nat -> get_property (VArr l) (index_key i) = nth i l VUndefined.
Proof.
  intros H. unfold get_property, index_of_key.
  rewrite index_key_not_length, find_index_key by lia. reflexivity.
Qed.

Lemma GetV_there v k : nullish v = false -> GetV v k = ret (get_property v k).
Proof. destruct v; simpl; intros H; try discriminate; reflexivity. Qed.

Lemma carries_uri_there img : carries_uri img = true -> nullish img = false.
Proof. destruct img; simpl; intros H; try discriminate; reflexivity. Qed.

Lemma check_reference_image_pass l i s :
  (i < List.length l)%nat -> carries_uri (nth i l VUndefined) = true ->
  check_reference_image (VArr l) i s = (s, Normal tt).
Proof.
  intros Hi Hc. unfold check_reference_image, bind.
  rewrite (GetV_there (VArr l)) by reflexivity. unfold ret at 1.
  rewrite get_property_index by exact Hi.
  rewrite GetV_there by (apply carries_uri_there; exact Hc).
  unfold ret at 1. unfold carries_uri in Hc. rewrite Hc. reflexivity.
Qed.

Lemma check_reference_image_reject l i s :
  (i < List.length l)%nat -> lacks_uri (nth i l VUndefined) = true ->
  check_reference_image (VArr l) i s = (s, Return (uri_error i)).
Proof.
  intros Hi Hc. unfold lacks_uri in Hc. apply andb_prop in Hc as [Hn Hc].
  apply negb_true_iff in Hn, Hc.
  unfold check_reference_image, bind.
  rewrite (GetV_there (VArr l)) by reflexivity. unfold ret at 1.
  rewrite get_property_index by exact Hi.
  rewrite GetV_there by exact Hn.
  unfold ret at 1. unfold carries_uri in Hc. rewrite Hc. reflexivity.
Qed.

Lemma for_range_pass l suffix : forall prefix s,
  l = (prefix ++ suffix)%list -> Forall (fun img => carries_uri img = true) suffix ->
  for_range (List.length prefix) (List.length suffix) (check_reference_image (VArr l)) s
  = (s, Normal tt).
Proof.
  induction suffix as [|img suffix IH]; intros prefix s Hl Hall; [reflexivity|].
  apply Forall_cons_iff in Hall as [Himg Hrest].
  cbn [for_range List.length]. unfold bind.
  rewrite check_reference_image_pass.
  - replace (S (List.length prefix)) with (List.length (prefix ++ [img])%list)
      by (rewrite length_app; simpl; lia).
    apply IH; [rewrite Hl, <- app_assoc; reflexivity | exact Hrest].
  - rewrite Hl, length_app. simpl. lia.
  - rewrite Hl, nth_middle. exact Himg.
Qed.

Lemma for_range_reject l img post : forall pre prefix s,
  l = (prefix ++ pre ++ img :: post)%list ->
  Forall (fun img => carries_uri img = true) pre -> lacks_uri img = true ->
  for_range (List.length prefix) (List.length (pre ++ img :: post)%list)
    (check_reference_image (VArr l)) s
  = (s, Return (uri_error (List.length prefix + List.length pre))).
Proof.
  induction pre as [|x pre IH]; intros prefix s Hl Hall Hlack.
  - change (List.length ([] ++ img :: post)%list) with (S (List.length post)).
    cbn [for_range]. unfold bind. rewrite check_reference_image_reject.
    + now rewrite Nat.add_0_r.
    + rewrite Hl, length_app. simpl. lia.
    + rewrite Hl. simpl. rewrite nth_middle. exact Hlack.
  - apply Forall_cons_iff in Hall as [Hx Hrest].
    change (List.length ((x :: pre) ++ img :: post)%list)
      with (S (List.length (pre ++ img :: post)%list)).
    cbn [for_range]. unfold bind. rewrite check_reference_image_pass.
    + replace (S (List.length prefix)) with (List.length (prefix ++ [x])%list)
        by (rewrite length_app; simpl; lia).
      rewrite (IH (prefix ++ [x])%list s).
      * rewrite length_app. simpl. do 3 f_equal. lia.
      * rewrite Hl, <- app_assoc. reflexivity.
      * exact Hrest.
      * exact Hlack.
    + rewrite Hl, length_app. simpl. lia.
    + rewrite Hl. change ((x :: pre) ++ img :: post)%list with (x :: (pre ++ img :: post))%list.
      rewrite nth_middle. exact Hx.
Qed.

Lemma check_reference_images_pass w l s :
  Forall (fun img => carries_uri img = true) l ->
  check_reference_images w (VArr l) s = (s, Normal tt).
Proof.
  intros H. unfold check_reference_images, bind.
  rewrite (GetV_there (VArr l)) by reflexivity. unfold ret at 1.
  simpl get_property. simpl ToNumber. simpl rounds.
  rewrite Nat2Z.id. exact (for_range_pass l l [] s eq_refl H).
Qed.

Lemma check_reference_images_reject w pre img post s :
  Forall (fun img => carries_uri img = true) pre -> lacks_uri img = true ->
  check_reference_images w (VArr (pre ++ img :: post)%list) s
  = (s, Return (uri_error (List.length pre))).
Proof.
  intros H Hl. unfold check_reference_images, bind.
  rewrite (GetV_there (VArr _)) by reflexivity. unfold ret at 1.
  simpl get_property. simpl ToNumber. simpl rounds.
  rewrite Nat2Z.id. exact (for_range_reject _ img post pre [] s eq_refl H Hl).
Qed.

(** ** Envelopes are all a handler returns *)

Lemma sat_ret {A} (a : A) (Q : A -> Prop) E : Q a -> sat (ret a) Q E.
Proof. intros H s. exact H. Qed.

Lemma sat_return {A} v (Q : A -> Prop) E : envelope v = true -> sat (return_ v) Q E.
Proof. intros H s. exact H. Qed.

Lemma sat_throw {A} e (Q : A -> Prop) (E : value -> Prop) : E e -> sat (throw e) Q E.
Proof. intros H s. exact H. Qed.

Lemma sat_bind {A B} (m : M A) (k : A -> M B) Q Q' E :
  sat m Q E -> (forall a, Q a -> sat (k a) Q' E) -> sat (bind m k) Q' E.
Proof.
  intros Hm Hk s. unfold bind. specialize (Hm s).
  destruct (m s) as [s' [a|v|e]]; simpl in *; auto.
  apply Hk, Hm.
Qed.

Lemma sat_seq {A B} (m : M A) (k : A -> M B) Q E :
  sat m anything E -> (forall a, sat (k a) Q E) -> sat (bind m k) Q E.
Proof. intros Hm Hk. apply (sat_bind m k anything); auto. Qed.

Lemma sat_weaken {A} (m : M A) (Q Q' : A -> Prop) (E E' : value -> Prop) :
  sat m Q E -> (forall a, Q a -> Q' a) -> (forall e, E e -> E' e) -> sat m Q' E'.
Proof.
  intros Hm HQ HE s. specialize (Hm s). destruct (snd (m s)); auto.
Qed.

Lemma sat_GetV v k : sat (GetV v k) anything an_error.
Proof. intros s. destruct v; simpl; exact I || reflexivity. Qed.

Lemma sat_when c stmt E : sat stmt anything E -> sat (when c stmt) anything E.
Proof. intros H. destruct c; [exact H | apply sat_ret; exact I]. Qed.

Lemma sat_await op w ep arg :
  vendor_throws_catchable op w -> sat (await_client w ep arg) anything (caught_by op).
Proof.
  intros H s. unfold await_client. destruct (vendor w ep arg) eqn:E; simpl; [exact I|].
  exact (H _ _ _ E).
Qed.

Lemma sat_console_error label e E : sat (console_error label e) anything E.
Proof. intros s. exact I. Qed.

Lemma sat_for_range body E : (forall i, sat (body i) anything E) ->
  forall count from, sat (for_range from count body) anything E.
Proof.
  intros H. induction count as [|count IH]; intros from; simpl.
  - apply sat_ret. exact I.
  - apply sat_seq; [apply H | intros _; apply IH].
Qed.

Lemma sat_mapM cb E : (forall x, sat (cb x) anything E) ->
  forall l, sat (mapM cb l) anything E.
Proof.
  intros H. induction l as [|x l IH]; simpl.
  - apply sat_ret. exact I.
  - apply sat_seq; [apply H | intros y].
    apply sat_seq; [apply IH | intros ys]. apply sat_ret. exact I.
Qed.

Lemma sat_try_catch {A} (body : M A) handler Q (E E' : value -> Prop) :
  sat body Q E -> (forall e, E e -> sat (handler e) Q E') ->
  sat (try_catch body handler) Q E'.
Proof.
  intros Hb Hh s. unfold try_catch. specialize (Hb s).
  destruct (body s) as [s' [a|v|e]]; simpl in *; auto.
  apply Hh, Hb.
Qed.

Lemma sat_async body :
  sat body nothing nothing ->
  forall s, exists s' env,
    async body s = (s', Fulfilled (VObj env)) /\ envelope (VObj env) = true.
Proof.
  intros H s. unfold async. specialize (H s).
  destruct (body s) as [s' [a|v|e]]; simpl in H; try contradiction.
  destruct v; try discriminate. eauto.
Qed.

Ltac sat_step :=
  first
    [ apply sat_GetV
    | apply sat_console_error
    | apply sat_return; reflexivity
    | apply sat_ret; exact I
    | apply sat_when
    | apply sat_seq; [ | intros ? ] ].

Lemma sat_first_output output : sat (first_output output) anything an_error.
Proof.
  unfold first_output. destruct (ToBoolean output); [|apply sat_ret; exact I].
  apply sat_seq; [apply sat_GetV | intros first].
  destruct (ToBoolean first); [apply sat_GetV | apply sat_ret; exact I].
Qed.

Lemma sat_check_reference_images w refs :
  sat (check_reference_images w refs) anything an_error.
Proof.
  unfold check_reference_images.
  apply sat_seq; [apply sat_GetV | intros len].
  apply sat_for_range. intros i. unfold check_reference_image.
  repeat sat_step.
Qed.

Lemma is_error_there e : is_error e = true -> nullish e = false.
Proof. destruct e; simpl; intros H; try discriminate; reflexivity. Qed.

Lemma is_error_message e :
  is_error e = true -> exists m, get_property e "message" = VStr m.
Proof.
  destruct e; simpl; try discriminate.
  destruct (get_field fields "message"); try discriminate. eauto.
Qed.

Lemma catchable_there op e : catchable op e = true -> nullish e = false.
Proof.
  unfold catchable. intros H. apply andb_prop in H as [H _].
  apply negb_true_iff in H. exact H.
Qed.

Lemma error_is_catchable op e : is_error e = true -> catchable op e = true.
Proof.
  intros He. destruct (is_error_message e He) as [m Hm].
  apply is_error_there in He. unfold catchable. rewrite He, Hm.
  destruct op; try reflexivity.
  cbn [negb andb].
  destruct (strict_equals (get_property e "status") (VNum (Num 400))); reflexivity.
Qed.

Lemma sat_errors {A} op (m : M A) (Q : A -> Prop) :
  sat m Q an_error -> sat m Q (caught_by op).
Proof.
  intros H. apply (sat_weaken m Q Q an_error); auto.
  intros e. apply error_is_catchable.
Qed.

Lemma sat_generation_catch label failed generic e :
  failed <> "" -> generic <> "" -> nullish e = false ->
  sat (generation_catch label failed generic e) nothing nothing.
Proof.
  intros Hf Hg He.
  unfold generation_catch.
  apply sat_seq; [apply sat_console_error | intros _].
  rewrite !(GetV_there e) by exact He.
  apply sat_seq; [apply sat_ret; exact I | intros name].
  destruct (strict_equals name (VStr "TaskFailedError")).
  - apply sat_seq; [apply sat_ret; exact I | intros details].
    apply sat_seq; [apply sat_ret; exact I | intros taskDetails].
    apply sat_return. simpl. apply negb_true_iff, String.eqb_neq, Hf.
  - apply sat_seq; [apply sat_ret; exact I | intros message].
    apply sat_return. simpl. apply negb_true_iff, String.eqb_neq, Hg.
Qed.

Lemma sat_status_catch taskId e :
  nullish e = false -> sat (GetTaskStatus.catch taskId e) nothing nothing.
Proof.
  intros He. unfold GetTaskStatus.catch.
  apply sat_seq; [apply sat_console_error | intros _].
  rewrite !(GetV_there e) by exact He.
  apply sat_seq; [apply sat_ret; exact I | intros status].
  destruct (strict_equals status (VNum (Num 404))).
  - apply sat_return. reflexivity.
  - apply sat_seq; [apply sat_ret; exact I | intros message].
    apply sat_return. reflexivity.
Qed.

Lemma sat_cancel_catch taskId e :
  catchable OpCancelTask e = true -> sat (CancelTask.catch taskId e) nothing nothing.
Proof.
  intros Hc. pose proof (catchable_there _ _ Hc) as He.
  unfold catchable in Hc. rewrite He in Hc. cbn [negb andb] in Hc.
  unfold CancelTask.catch.
  rewrite !(GetV_there e) by exact He.
  intros s. unfold bind, ret, console_error, return_, CancelTask.optional_includes.
  cbn [snd].
  destruct (strict_equals (get_property e "status") (VNum (Num 404))); [reflexivity|].
  destruct (strict_equals (get_property e "status") (VNum (Num 400))); [|reflexivity].
  destruct (get_property e "message") as [| | | |m|l|]; try discriminate Hc;
    cbn; try reflexivity.
  - destruct (includes "cannot be canceled" m); reflexivity.
  - destruct (existsb _ l); reflexivity.
Qed.

Lemma sat_list_tasks_catch e :
  nullish e = false -> sat (list_tasks_catch e) nothing nothing.
Proof.
  intros He. unfold list_tasks_catch.
  apply sat_seq; [apply sat_console_error | intros _].
  rewrite !(GetV_there e) by exact He.
  apply sat_seq; [apply sat_ret; exact I | intros message].
  apply sat_return. reflexivity.
Qed.

Lemma sat_catch_of op args e :
  catchable op e = true -> sat (catch_of op args e) nothing nothing.
Proof.
  intros Hc. pose proof (catchable_there _ _ Hc) as He.
  destruct op; cbn [catch_of];
    first [ apply sat_generation_catch; [discriminate | discriminate | exact He]
          | apply sat_status_catch; exact He
          | apply sat_cancel_catch; exact Hc
          | apply sat_list_tasks_catch; exact He ].
Qed.

Lemma sat_validation op w args : sat (validation op w args) anything an_error.
Proof.
  destruct op; cbn [validation];
    try (apply sat_ret; exact I);
    unfold GenerateImageWithReferences.validate, GenerateVideoFromImage.validate,
      GenerateVideoFromVideo.validate, UpscaleVideo.validate,
      GetTaskStatus.validate, CancelTask.validate;
    repeat first [ apply sat_check_reference_images | sat_step ].
Qed.

Lemma sat_summary task : sat (ListTasks.summary task) anything an_error.
Proof. unfold ListTasks.summary. repeat sat_step. Qed.

Lemma sat_array_map data :
  sat (ListTasks.array_map data ListTasks.summary) anything an_error.
Proof.
  destruct data; simpl; try (apply sat_throw; reflexivity).
  apply sat_seq; [apply sat_mapM; apply sat_summary | intros ys].
  apply sat_ret. exact I.
Qed.

Ltac sat_body Hw :=
  repeat first
    [ apply sat_return; reflexivity
    | apply sat_errors, sat_first_output
    | apply sat_errors, sat_array_map
    | apply sat_errors, sat_GetV
    | apply sat_await; exact Hw
    | apply sat_errors, (sat_validation OpGenerateImageWithReferences)
    | apply sat_errors, (sat_validation OpGenerateVideoFromImage)
    | apply sat_errors, (sat_validation OpGenerateVideoFromVideo)
    | apply sat_errors, (sat_validation OpUpscaleVideo)
    | apply sat_errors, (sat_validation OpGetTaskStatus)
    | apply sat_errors, (sat_validation OpCancelTask)
    | apply sat_when
    | apply sat_ret; exact I
    | match goal with |- sat (if ?c then _ else _) _ _ => destruct c end
    | apply sat_seq; [ | intros ? ] ].

Lemma handlers_return_envelopes op w args :
  vendor_throws_catchable op w ->
  forall s, exists s' env,
    function (apiTool_of op) w args s = (s', Fulfilled (VObj env))
    /\ envelope (VObj env) = true.
Proof.
  intros Hw.
  destruct op; cbn [apiTool_of function GenerateImage.apiTool
    GenerateImageWithReferences.apiTool GenerateVideoFromText.apiTool
    GenerateVideoFromImage.apiTool GenerateVideoFromVideo.apiTool
    UpscaleVideo.apiTool GetTaskStatus.apiTool ListTasks.apiTool
    CancelTask.apiTool ListTasksUnsupported.apiTool].
  all: apply sat_async.
  all: match type of Hw with
       | vendor_throws_catchable ?o _ => apply sat_try_catch with (E := caught_by o)
       end.
  all: try (intros e He).
  all: try (sat_body Hw; fail).
  all: first
    [ exact (sat_catch_of OpGenerateImage args e He)
    | exact (sat_catch_of OpGenerateImageWithReferences args e He)
    | exact (sat_catch_of OpGenerateVideoFromText args e He)
    | exact (sat_catch_of OpGenerateVideoFromImage args e He)
    | exact (sat_catch_of OpGenerateVideoFromVideo args e He)
    | exact (sat_catch_of OpUpscaleVideo args e He)
    | exact (sat_catch_of OpGetTaskStatus args e He)
    | exact (sat_catch_of OpListTasks args e He)
    | exact (sat_catch_of OpCancelTask args e He) ].
Qed.

Lemma envelope_shapes env :
  envelope (VObj env) = true ->
  (success_shape env \/ failure_shape env)
  /\ ~ (success_shape env /\ failure_shape env).
Proof.
  unfold envelope, success_shape, failure_shape. intros H. split.
  - destruct (own "success" env) as [[| |[|]| | | |]|]; try discriminate;
      destruct (own "error" env) as [[| | | |msg| |]|]; try discriminate.
    + left. split; reflexivity.
    + right. split; [reflexivity|]. exists msg. split; [reflexivity|].
      apply negb_true_iff, String.eqb_neq in H. exact H.
  - intros [[H1 _] [H2 _]]. rewrite H1 in H2. discriminate H2.
Qed.

(** ** Running a handler up to the vendor call *)

Lemma bind_passes {B} (m : M unit) (k : unit -> M B) s :
  passes m -> bind m k s = k tt s.
Proof. intros H. unfold bind. rewrite H. reflexivity. Qed.

Lemma bind_key_set {B} w stmt (k : unit -> M B) s :
  key_set w ->
  bind (when (negb (ToBoolean (process_env_RUNWAY_API_KEY w))) stmt) k s = k tt s.
Proof. unfold key_set. intros ->. reflexivity. Qed.

Lemma bind_await_resolves {B} w ep arg (k : value -> M B) s v :
  vendor w ep arg = Resolves v ->
  bind (await_client w ep arg) k s = k v (called s ep arg).
Proof. intros H. unfold bind, await_client. rewrite H. reflexivity. Qed.

Lemma bind_await_rejects {B} w ep arg (k : value -> M B) s e :
  vendor w ep arg = Rejects e ->
  bind (await_client w ep arg) k s = (called s ep arg, Throw e).
Proof. intros H. unfold bind, await_client. rewrite H. reflexivity. Qed.

Lemma bind_GetV_there {B} v f (k : value -> M B) s :
  nullish v = false -> bind (GetV v f) k s = k (get_property v f) s.
Proof. intros H. rewrite GetV_there by exact H. reflexivity. Qed.

Lemma video_validation_there w args :
  passes (GenerateVideoFromVideo.validate w args) ->
  nullish (param args "referenceImages" (VArr [])) = false.
Proof.
  intros H. specialize (H initial). unfold GenerateVideoFromVideo.validate in H.
  destruct (param args "referenceImages" (VArr [])); try reflexivity.
  all: unfold bind, when in H;
    destruct (ToBoolean (get_field args "promptVideo"));
    destruct (ToBoolean (get_field args "promptText")); discriminate H.
Qed.

Ltac open_handler :=
  cbn [apiTool_of function validation endpoint_of request_of catch_of
       GenerateImage.apiTool
       GenerateImageWithReferences.apiTool GenerateVideoFromText.apiTool
       GenerateVideoFromImage.apiTool GenerateVideoFromVideo.apiTool
       UpscaleVideo.apiTool GetTaskStatus.apiTool ListTasks.apiTool
       CancelTask.apiTool ListTasksUnsupported.apiTool] in *;
  unfold GenerateImage.executeFunction, GenerateImageWithReferences.executeFunction,
    GenerateVideoFromText.executeFunction, GenerateVideoFromImage.executeFunction,
    GenerateVideoFromVideo.executeFunction, UpscaleVideo.executeFunction,
    GetTaskStatus.executeFunction, ListTasks.executeFunction,
    CancelTask.executeFunction, ListTasksUnsupported.executeFunction.

Lemma dispatched op w args ep s :
  passes (validation op w args) -> key_set w ->
  endpoint_of op = Some ep ->
  function (apiTool_of op) w args s
  = async (try_catch
             (answer <- await_client w ep (request_of op w args) ;;
              respond_of op w args answer)
             (catch_of op args)) s.
Proof.
  intros Hv Hk Hep.
  destruct op; open_handler; try discriminate Hep;
    injection Hep as <-; unfold async, try_catch;
    try rewrite (bind_passes _ _ _ Hv);
    rewrite (bind_key_set _ _ _ _ Hk);
    try rewrite (bind_GetV_there _ _ _ _ (video_validation_there _ _ Hv));
    reflexivity.
Qed.

Lemma rejected op w args ep e s :
  passes (validation op w args) -> key_set w ->
  endpoint_of op = Some ep ->
  vendor w ep (request_of op w args) = Rejects e ->
  function (apiTool_of op) w args s
  = async (catch_of op args e) (called s ep (request_of op w args)).
Proof.
  intros Hv Hk Hep Hr. rewrite (dispatched op w args ep s Hv Hk Hep).
  unfold async, try_catch. rewrite (bind_await_rejects _ _ _ _ _ _ Hr).
  reflexivity.
Qed.

Lemma resolved op w args ep answer s :
  passes (validation op w args) -> key_set w ->
  endpoint_of op = Some ep ->
  vendor w ep (request_of op w args) = Resolves answer ->
  function (apiTool_of op) w args s
  = async (try_catch (respond_of op w args answer) (catch_of op args))
          (called s ep (request_of op w args)).
Proof.
  intros Hv Hk Hep Hr. rewrite (dispatched op w args ep s Hv Hk Hep).
  unfold async, try_catch. rewrite (bind_await_resolves _ _ _ _ _ _ Hr).
  reflexivity.
Qed.

(** ** The calls a handler makes *)

Lemma quiet_ret {A} (a : A) : quiet (ret a).
Proof. intros s. reflexivity. Qed.

Lemma quiet_return {A} v : quiet (@return_ A v).
Proof. intros s. reflexivity. Qed.

Lemma quiet_throw {A} e : quiet (@throw A e).
Proof. intros s. reflexivity. Qed.

Lemma quiet_bind {A B} (m : M A) (k : A -> M B) :
  quiet m -> (forall a, quiet (k a)) -> quiet (bind m k).
Proof.
  intros Hm Hk s. unfold bind. specialize (Hm s).
  destruct (m s) as [s' [a|v|e]]; simpl in *; auto.
  rewrite Hk. exact Hm.
Qed.

Lemma quiet_GetV v k : quiet (GetV v k).
Proof. intros s. destruct v; reflexivity. Qed.

Lemma quiet_when c stmt : quiet stmt -> quiet (when c stmt).
Proof. intros H. destruct c; [exact H | apply quiet_ret]. Qed.

Lemma quiet_console_error label e : quiet (console_error label e).
Proof. intros s. reflexivity. Qed.

Lemma quiet_for_range body : (forall i, quiet (body i)) ->
  forall count from, quiet (for_range from count body).
Proof.
  intros H. induction count as [|count IH]; intros from; simpl.
  - apply quiet_ret.
  - apply quiet_bind; [apply H | intros _; apply IH].
Qed.

Lemma quiet_mapM cb : (forall x, quiet (cb x)) -> forall l, quiet (mapM cb l).
Proof.
  intros H. induction l as [|x l IH]; simpl.
  - apply quiet_ret.
  - apply quiet_bind; [apply H | intros y].
    apply quiet_bind; [apply IH | intros ys]. apply quiet_ret.
Qed.

Lemma quiet_try_catch {A} (body : M A) handler :
  quiet body -> (forall e, quiet (handler e)) -> quiet (try_catch body handler).
Proof.
  intros Hb Hh s. unfold try_catch. specialize (Hb s).
  destruct (body s) as [s' [a|v|e]]; simpl in *; auto.
  rewrite Hh. exact Hb.
Qed.

Lemma fst_async body s : fst (async body s) = fst (body s).
Proof. unfold async. destruct (body s) as [s' [a|v|e]]; reflexivity. Qed.

Ltac quiet_body :=
  repeat first
    [ apply quiet_ret | apply quiet_return | apply quiet_throw
    | apply quiet_GetV | apply quiet_console_error
    | apply quiet_when
    | apply quiet_for_range; intros ?
    | apply quiet_mapM; intros ?
    | match goal with |- quiet (if ?c then _ else _) => destruct c end
    | match goal with |- quiet (match ?c with _ => _ end) => destruct c end
    | apply quiet_bind; [ | intros ? ] ].

Lemma quiet_first_output output : quiet (first_output output).
Proof. unfold first_output. quiet_body. Qed.

Lemma quiet_check_reference_images w refs : quiet (check_reference_images w refs).
Proof. unfold check_reference_images, check_reference_image. quiet_body. Qed.

Lemma quiet_catch_of op args e : quiet (catch_of op args e).
Proof.
  destruct op; cbn [catch_of];
    unfold generation_catch, GetTaskStatus.catch, CancelTask.catch,
      list_tasks_catch, CancelTask.optional_includes; quiet_body.
Qed.

Lemma quiet_validation op w args : quiet (validation op w args).
Proof.
  destruct op; cbn [validation];
    unfold GenerateImageWithReferences.validate, GenerateVideoFromImage.validate,
      GenerateVideoFromVideo.validate, UpscaleVideo.validate,
      GetTaskStatus.validate, CancelTask.validate;
    repeat first [ apply quiet_check_reference_images | progress quiet_body ].
Qed.

Lemma quiet_respond_of op w args answer : quiet (respond_of op w args answer).
Proof.
  destruct op; cbn [respond_of];
    unfold GenerateImage.respond, GenerateImageWithReferences.respond,
      GenerateVideoFromText.respond, GenerateVideoFromImage.respond,
      GenerateVideoFromVideo.respond, UpscaleVideo.respond,
      GetTaskStatus.respond, CancelTask.respond, ListTasks.respond,
      ListTasks.array_map, ListTasks.summary;
    repeat first [ apply quiet_first_output | progress quiet_body ].
Qed.

Lemma calls_dispatched op w args ep s :
  passes (validation op w args) -> key_set w ->
  endpoint_of op = Some ep ->
  calls (fst (function (apiTool_of op) w args s))
  = (calls s ++ [(ep, request_of op w args)])%list.
Proof.
  intros Hv Hk Hep. rewrite (dispatched op w args ep s Hv Hk Hep).
  rewrite fst_async. unfold try_catch, bind, await_client.
  destruct (vendor w ep (request_of op w args)) as [v|e].
  - pose proof (quiet_respond_of op w args v (called s ep (request_of op w args))) as Hq.
    destruct (respond_of op w args v (called s ep (request_of op w args)))
      as [s' [a|v'|e']]; simpl in *; try exact Hq.
    rewrite quiet_catch_of. exact Hq.
  - rewrite quiet_catch_of. reflexivity.
Qed.

Lemma missing_key op w args s :
  RUNWAY_API_KEY w = None -> passes (validation op w args) ->
  function (apiTool_of op) w args s = (s, Fulfilled missing_key_envelope).
Proof.
  intros Hn Hv.
  destruct op; open_handler; unfold async, try_catch;
    try rewrite (bind_passes _ _ _ Hv);
    unfold process_env_RUNWAY_API_KEY; rewrite Hn; reflexivity.
Qed.

(** ** Local checks, requests and answers *)

Lemma mock_throws_catchable op key e :
  catchable op e = true -> vendor_throws_catchable op (mock key (Rejects e)).
Proof. intros He ep arg e' H. injection H as <-. exact He. Qed.

Lemma index_of_key_none k len :
  NilEmpty.uint_of_string k = None -> index_of_key k len = None.
Proof.
  intros H. unfold index_of_key.
  destruct (find (fun i => String.eqb (index_key i) k) (seq 0 len)) as [i|] eqn:E;
    [|reflexivity].
  apply find_some in E as [_ E]. apply String.eqb_eq in E. subst k.
  unfold index_key in H. rewrite NilEmpty.usu in H. discriminate H.
Qed.

(** What [destructure] gives is what reading the properties of the
    argument gives, for every parameter that a handler has. *)
Lemma parameters_of_other_values op k argument args :
  declared op k = true -> destructure argument = Some args ->
  get_field args k = get_property argument k.
Proof.
  intros Hd Hv.
  destruct argument; simpl in Hv; try discriminate Hv; injection Hv as <-;
    try reflexivity.
  all: unfold declared in Hd; apply existsb_exists in Hd as [p [Hin Hk]];
    apply String.eqb_eq in Hk; subst k.
  all: destruct op; simpl in Hin;
    repeat (destruct Hin as [<- | Hin];
            [ unfold get_property; cbn [name prop prop_enum prop_range prop_array];
              cbn [String.eqb Ascii.eqb Bool.eqb];
              rewrite index_of_key_none by reflexivity; reflexivity | ]);
    contradiction Hin.
Qed.

Lemma vendor_answer_endpoint op w args o :
  vendor_answer op w args = Some o ->
  exists ep, endpoint_of op = Some ep /\ vendor w ep (request_of op w args) = o.
Proof.
  unfold vendor_answer. destruct (endpoint_of op) as [ep|]; simpl; [|discriminate].
  intros H. injection H as H. eauto.
Qed.

Lemma task_id_passes op w args :
  op = OpGetTaskStatus \/ op = OpCancelTask ->
  ToBoolean (get_field args "taskId") = true -> passes (validation op w args).
Proof.
  intros [-> | ->] H s; cbn [validation];
    unfold GetTaskStatus.validate, CancelTask.validate; rewrite H; reflexivity.
Qed.

Lemma generation_catch_failed label failed generic e s :
  nullish e = false -> get_property e "name" = VStr "TaskFailedError" ->
  async (generation_catch label failed generic e) s
  = (logged s label e,
     Fulfilled (VObj [("success", VBool false);
                      ("error", VStr failed);
                      ("details", get_property e "taskDetails");
                      ("taskId", optional_get (get_property e "taskDetails") "id")])).
Proof.
  intros He Hn. unfold generation_catch, async, bind, console_error.
  rewrite !(GetV_there e) by exact He. unfold ret. rewrite Hn. reflexivity.
Qed.

Lemma generation_catch_generic label failed generic e s :
  nullish e = false ->
  strict_equals (get_property e "name") (VStr "TaskFailedError") = false ->
  async (generation_catch label failed generic e) s
  = (logged s label e,
     Fulfilled (VObj [("success", VBool false);
                      ("error", VStr generic);
                      ("message", get_property e "message")])).
Proof.
  intros He Hn. unfold generation_catch, async, bind, console_error.
  rewrite !(GetV_there e) by exact He. unfold ret. rewrite Hn. reflexivity.
Qed.

Lemma generation_cases op :
  In op generation ->
  op = OpGenerateImage \/ op = OpGenerateImageWithReferences
  \/ op = OpGenerateVideoFromText \/ op = OpGenerateVideoFromImage
  \/ op = OpGenerateVideoFromVideo \/ op = OpUpscaleVideo.
Proof. simpl. intuition auto. Qed.

Lemma generation_catch_of op args :
  In op generation ->
  catch_of op args
  = generation_catch (console_label op) (failed_message op) (generic_message op).
Proof.
  intros H. apply generation_cases in H.
  destruct H as [-> | [-> | [-> | [-> | [-> | ->]]]]]; reflexivity.
Qed.

Lemma first_output_list output s :
  output_list output = true ->
  first_output output s = (s, Normal (first_truthy output)).
Proof.
  destruct output as [| | | | |l|]; try discriminate; intros _; try reflexivity.
  destruct l as [|first l]; [reflexivity|].
  unfold first_output, bind. cbn [ToBoolean].
  rewrite !(GetV_there (VArr (first :: l))) by reflexivity.
  rewrite (get_property_index (first :: l) 0) by (simpl; lia).
  unfold ret. cbn [nth first_truthy]. destruct (ToBoolean first); reflexivity.
Qed.

Lemma bind_first_output {B} output (k : value -> M B) s :
  output_list output = true ->
  bind (first_output output) k s = k (first_truthy output) s.
Proof. intros H. unfold bind. rewrite (first_output_list _ _ H). reflexivity. Qed.

Lemma rejected_locally op w args v s :
  (forall s', validation op w args s' = (s', Return v)) ->
  function (apiTool_of op) w args s = (s, Fulfilled v).
Proof.
  intros H.
  destruct op; open_handler;
    try (specialize (H s); discriminate H);
    unfold async, try_catch, bind; rewrite H; reflexivity.
Qed.

Lemma image_references_pass w args refs :
  get_field args "referenceImages" = VArr refs -> refs <> [] ->
  Forall (fun img => carries_uri img = true) refs ->
  passes (GenerateImageWithReferences.validate w args).
Proof.
  intros Hr Hne Hall s. unfold GenerateImageWithReferences.validate. rewrite Hr.
  destruct refs as [|img refs]; [contradiction|].
  unfold bind. cbn [isArray negb orb get_property String.eqb Ascii.eqb Bool.eqb
                     List.length strict_equals when ret].
  replace (Z.of_nat (S (List.length refs)) =? 0)%Z with false
    by (symmetry; apply Z.eqb_neq; lia).
  apply check_reference_images_pass. exact Hall.
Qed.

Lemma image_references_empty w args s :
  get_field args "referenceImages" = VArr [] ->
  GenerateImageWithReferences.validate w args s
  = (s, Return (VObj [("success", VBool false);
                      ("error", VStr "referenceImages must be a non-empty array")])).
Proof.
  intros Hr. unfold GenerateImageWithReferences.validate. rewrite Hr. reflexivity.
Qed.

Lemma image_references_lacking w args pre img post s :
  get_field args "referenceImages" = VArr (pre ++ img :: post)%list ->
  Forall (fun img => carries_uri img = true) pre -> lacks_uri img = true ->
  GenerateImageWithReferences.validate w args s
  = (s, Return (uri_error (List.length pre))).
Proof.
  intros Hr Hall Hl. unfold GenerateImageWithReferences.validate. rewrite Hr.
  unfold bind. cbn [isArray negb orb get_property String.eqb Ascii.eqb Bool.eqb
                     strict_equals].
  replace (Z.of_nat (List.length (pre ++ img :: post)%list) =? 0)%Z with false
    by (symmetry; apply Z.eqb_neq; rewrite length_app; simpl; lia).
  cbn [when ret]. apply check_reference_images_reject; assumption.
Qed.

Lemma video_references_pass w args refs :
  ToBoolean (get_field args "promptVideo") = true ->
  ToBoolean (get_field args "promptText") = true ->
  get_field args "referenceImages" = VArr refs ->
  Forall (fun img => carries_uri img = true) refs ->
  passes (GenerateVideoFromVideo.validate w args).
Proof.
  intros Hv Ht Hr Hall s. unfold GenerateVideoFromVideo.validate, param.
  rewrite Hv, Ht, Hr. unfold bind. cbn [negb when ret].
  rewrite (GetV_there (VArr refs)) by reflexivity. unfold ret.
  destruct (number_lt (Num 0) (ToNumber (coerce w) (get_property (VArr refs) "length")));
    cbn [when]; [apply check_reference_images_pass; exact Hall | reflexivity].
Qed.

Lemma invoke_dispatched op w args ep :
  passes (validation op w args) -> key_set w -> endpoint_of op = Some ep ->
  vendor_calls op w args = [(ep, request_of op w args)].
Proof.
  intros Hv Hk Hep. unfold vendor_calls, invoke.
  rewrite (calls_dispatched op w args ep initial Hv Hk Hep). reflexivity.
Qed.

Lemma param_provided args k d v :
  get_field args k = v -> strict_equals v VUndefined = false -> param args k d = v.
Proof.
  intros H Hv. unfold param. rewrite H.
  destruct v; try reflexivity. discriminate Hv.
Qed.

Lemma forwarded_dispatched op w args ep k v p :
  passes (validation op w args) -> key_set w -> endpoint_of op = Some ep ->
  request_of op w args = VObj p -> own k p = Some v ->
  forwarded k v (vendor_calls op w args).
Proof.
  intros Hv Hk Hep Hr Ho. exists ep, p. split; [|exact Ho].
  rewrite (invoke_dispatched op w args ep Hv Hk Hep), Hr. reflexivity.
Qed.

Lemma first_without_uri refs :
  Exists (fun img => carries_uri img = false) refs ->
  exists pre img post,
    refs = (pre ++ img :: post)%list
    /\ Forall (fun img => carries_uri img = true) pre
    /\ carries_uri img = false.
Proof.
  induction refs as [|x refs IH]; intros H; [inversion H|].
  destruct (carries_uri x) eqn:Hx.
  - inversion H as [? ? Hx'|? ? H']; subst; [congruence|].
    destruct (IH H') as [pre [img [post [-> [Hpre Himg]]]]].
    exists (x :: pre), img, post. repeat split; [constructor; assumption | assumption].
  - exists [], x, refs. repeat split; [constructor | assumption].
Qed.

Ltac params_cases :=
  unfold GenerateImage.params, GenerateImageWithReferences.params,
    GenerateVideoFromText.params, GenerateVideoFromImage.params,
    GenerateVideoFromVideo.params, UpscaleVideo.params, list_tasks_params,
    add_seed, add_if_truthy;
  repeat match goal with
         | |- context [if ?c then _ else _] => destruct c eqn:?
         end.

Lemma strict_equals_undefined v :
  negb (strict_equals v VUndefined) = true -> strict_equals v VUndefined = false.
Proof. apply negb_true_iff. Qed.

Lemma enumerated_cases op k :
  enumerated op k = true ->
  k = "model" \/ k = "ratio" \/ (k = "style" /\ op = OpGenerateImage)
  \/ (k = "status" /\ (op = OpListTasks \/ op = OpListTasksUnsupported)).
Proof.
  unfold enumerated. intros H. apply existsb_exists in H as [p [Hin Hp]].
  apply andb_prop in Hp as [Hn He]. apply String.eqb_eq in Hn. subst k.
  destruct op; simpl in Hin;
    repeat (destruct Hin as [<- | Hin]; [simpl in *; try discriminate He; auto 10|]);
    contradiction.
Qed.

Lemma own_set_field_other k k' v o :
  k' <> k -> own k' (set_field k v o) = own k' o.
Proof.
  intros Hk. induction o as [|[k0 v0] o IH]; simpl.
  - destruct (String.eqb k k') eqn:E; [apply String.eqb_eq in E; congruence | reflexivity].
  - destruct (String.eqb k0 k) eqn:E0.
    + apply String.eqb_eq in E0. subst k0. simpl.
      destruct (String.eqb k k') eqn:E; [apply String.eqb_eq in E; congruence | reflexivity].
    + simpl. destruct (String.eqb k0 k'); [reflexivity | exact IH].
Qed.

Lemma get_field_set_field_other k k' v o :
  k' <> k -> get_field (set_field k v o) k' = get_field o k'.
Proof. intros H. unfold get_field. rewrite (own_set_field_other k k' v o H). reflexivity. Qed.

Lemma validation_ignores_enumerated op w args k v :
  enumerated op k = true ->
  validation op w (set_field k v args) = validation op w args.
Proof.
  intros He. pose proof (enumerated_cases op k He) as Hc.
  destruct Hc as [-> | [-> | [[-> ->] | [-> [-> | ->]]]]];
    try destruct op; try discriminate He; cbn [validation]; try reflexivity;
    unfold GenerateImageWithReferences.validate, GenerateVideoFromImage.validate,
      GenerateVideoFromVideo.validate, UpscaleVideo.validate, param;
    repeat rewrite get_field_set_field_other by discriminate; reflexivity.
Qed.

Lemma summary_there task s :
  nullish task = false -> ListTasks.summary task s = (s, Normal (summary_of task)).
Proof.
  intros H. unfold ListTasks.summary.
  repeat rewrite (bind_GetV_there task _ _ _ H). reflexivity.
Qed.

Lemma mapM_summary l s :
  Forall (fun task => nullish task = false) l ->
  mapM ListTasks.summary l s = (s, Normal (map summary_of l)).
Proof.
  induction 1 as [|task l Ht _ IH]; [reflexivity|].
  cbn [mapM map]. unfold bind. rewrite (summary_there task s Ht), IH. reflexivity.
Qed.

Lemma list_tasks_unsupported w args s :
  key_set w ->
  function (apiTool_of OpListTasksUnsupported) w args s
  = (s, Fulfilled ListTasksUnsupported.unsupported).
Proof.
  intros Hk. open_handler. unfold async, try_catch.
  rewrite (bind_key_set _ _ _ _ Hk). reflexivity.
Qed.

Lemma list_tasks_limit w args n :
  get_field args "limit" = VNum (Num n) ->
  own "limit" (list_tasks_params w args) = Some (VNum (Num (Z.min n 100))).
Proof.
  intros H. unfold list_tasks_params, param. rewrite H. params_cases; reflexivity.
Qed.

Lemma list_tasks_filters w args :
  own "status" (list_tasks_params w args)
  = (if ToBoolean (get_field args "status") then Some (get_field args "status") else None)
  /\ own "cursor" (list_tasks_params w args)
     = (if ToBoolean (get_field args "cursor") then Some (get_field args "cursor") else None).
Proof.
  unfold list_tasks_params, add_if_truthy.
  destruct (ToBoolean (get_field args "status")),
    (ToBoolean (get_field args "cursor")); split; reflexivity.
Qed.

Lemma list_tasks_listed w args tasks l :
  key_set w ->
  vendor w tasks_list (VObj (list_tasks_params w args)) = Resolves tasks ->
  get_property tasks "data" = VArr l ->
  Forall (fun task => nullish task = false) l ->
  result OpListTasks w args
  = Fulfilled (VObj [("success", VBool true);
                     ("tasks", VArr (map summary_of l));
                     ("hasMore", get_property tasks "hasMore");
                     ("nextCursor", get_property tasks "nextCursor");
                     ("total", get_property tasks "total")]).
Proof.
  intros Hk Hr Hd Hl.
  assert (Ht : nullish tasks = false)
    by (destruct tasks; try reflexivity; discriminate Hd).
  unfold result, invoke.
  rewrite (resolved OpListTasks w args tasks_list tasks initial
             (fun s => eq_refl) Hk eq_refl Hr).
  cbn [respond_of]. unfold ListTasks.respond, async, try_catch.
  rewrite (bind_GetV_there tasks _ _ _ Ht). rewrite Hd.
  cbn [ToBoolean ListTasks.array_map]. unfold bind at 1. unfold bind at 1.
  rewrite (mapM_summary l _ Hl). unfold ret at 1.
  repeat rewrite (bind_GetV_there tasks _ _ _ Ht). reflexivity.
Qed.

(** The required parameters that the handlers do check: without them the
    handler answers that the parameter is required (for [referenceImages],
    that it must be a non-empty array) and calls nothing. *)
Lemma checked_parameters_are_rejected w args :
  (ToBoolean (get_field args "promptImage") = false ->
   invoke OpGenerateVideoFromImage w args
   = (initial, Fulfilled (required_error "promptImage")))
  /\ (ToBoolean (get_field args "promptVideo") = false ->
      invoke OpGenerateVideoFromVideo w args
      = (initial, Fulfilled (required_error "promptVideo")))
  /\ (ToBoolean (get_field args "promptVideo") = true ->
      ToBoolean (get_field args "promptText") = false ->
      invoke OpGenerateVideoFromVideo w args
      = (initial, Fulfilled (required_error "promptText")))
  /\ (ToBoolean (get_field args "promptVideo") = false ->
      invoke OpUpscaleVideo w args
      = (initial, Fulfilled (required_error "promptVideo")))
  /\ (ToBoolean (get_field args "taskId") = false ->
      invoke OpGetTaskStatus w args = (initial, Fulfilled (required_error "taskId"))
      /\ invoke OpCancelTask w args = (initial, Fulfilled (required_error "taskId")))
  /\ (isArray (get_field args "referenceImages") = false ->
      invoke OpGenerateImageWithReferences w args
      = (initial,
         Fulfilled (VObj [("success", VBool false);
                          ("error", VStr "referenceImages must be a non-empty array")]))).
Proof.
  repeat split; intros; apply rejected_locally; intros s; cbn [validation];
    unfold GenerateVideoFromImage.validate, GenerateVideoFromVideo.validate,
      UpscaleVideo.validate, GetTaskStatus.validate, CancelTask.validate,
      GenerateImageWithReferences.validate, bind;
    repeat match goal with H : _ = _ |- _ => rewrite H end; reflexivity.
Qed.

(** [registry] lists the tools in the order of [toolPaths]. *)
Lemma registry_paths : map path_of registry = toolPaths.
Proof. reflexivity. Qed.

Lemma check_reference_image_throws l i s :
  (i < List.length l)%nat -> nullish (nth i l VUndefined) = true ->
  exists message, check_reference_image (VArr l) i s = (s, Throw (TypeError message)).
Proof.
  intros Hi Hn. unfold check_reference_image, bind.
  rewrite (GetV_there (VArr l)) by reflexivity. unfold ret at 1.
  rewrite get_property_index by exact Hi.
  destruct (nth i l VUndefined); try discriminate Hn; eexists; reflexivity.
Qed.

Lemma for_range_throws l img post : forall pre prefix s,
  l = (prefix ++ pre ++ img :: post)%list ->
  Forall (fun img => carries_uri img = true) pre -> nullish img = true ->
  exists message,
    for_range (List.length prefix) (List.length (pre ++ img :: post)%list)
      (check_reference_image (VArr l)) s = (s, Throw (TypeError message)).
Proof.
  induction pre as [|x pre IH]; intros prefix s Hl Hall Hn.
  - change (List.length ([] ++ img :: post)%list) with (S (List.length post)).
    cbn [for_range]. unfold bind.
    destruct (check_reference_image_throws l (List.length prefix) s) as [e He].
    + rewrite Hl, length_app. simpl. lia.
    + rewrite Hl. simpl. rewrite nth_middle. exact Hn.
    + rewrite He. eauto.
  - apply Forall_cons_iff in Hall as [Hx Hrest].
    change (List.length ((x :: pre) ++ img :: post)%list)
      with (S (List.length (pre ++ img :: post)%list)).
    cbn [for_range]. unfold bind. rewrite check_reference_image_pass.
    + replace (S (List.length prefix)) with (List.length (prefix ++ [x])%list)
        by (rewrite length_app; simpl; lia).
      apply (IH (prefix ++ [x])%list s); [|exact Hrest|exact Hn].
      rewrite Hl, <- app_assoc. reflexivity.
    + rewrite Hl, length_app. simpl. lia.
    + rewrite Hl. change ((x :: pre) ++ img :: post)%list with (x :: (pre ++ img :: post))%list.
      rewrite nth_middle. exact Hx.
Qed.

Lemma check_reference_images_throws w pre img post s :
  Forall (fun img => carries_uri img = true) pre -> nullish img = true ->
  exists message,
    check_reference_images w (VArr (pre ++ img :: post)%list) s
    = (s, Throw (TypeError message)).
Proof.
  intros H Hn. unfold check_reference_images, bind.
  rewrite (GetV_there (VArr _)) by reflexivity. unfold ret at 1.
  simpl get_property. simpl ToNumber. simpl rounds.
  rewrite Nat2Z.id. exact (for_range_throws _ img post pre [] s eq_refl H Hn).
Qed.

Lemma thrown_locally op w args e s :
  In op generation ->
  validation op w args s = (s, Throw e) -> nullish e = false ->
  strict_equals (get_property e "name") (VStr "TaskFailedError") = false ->
  function (apiTool_of op) w args s
  = (logged s (console_label op) e,
     Fulfilled (VObj [("success", VBool false);
                      ("error", VStr (generic_message op));
                      ("message", get_property e "message")])).
Proof.
  intros Hop Hv He Hn. apply generation_cases in Hop.
  destruct Hop as [-> | [-> | [-> | [-> | [-> | ->]]]]]; open_handler;
    try discriminate Hv;
    unfold async, try_catch, bind at 1; rewrite Hv;
    exact (generation_catch_generic _ _ _ e s He Hn).
Qed.

Lemma image_references_null w args pre img post s :
  get_field args "referenceImages" = VArr (pre ++ img :: post)%list ->
  Forall (fun img => carries_uri img = true) pre ->
  nullish img = true ->
  exists message,
    function (apiTool_of OpGenerateImageWithReferences) w args s
    = (logged s "Error generating image with references:" (TypeError message),
       Fulfilled (VObj [("success", VBool false);
                        ("error", VStr "An error occurred while generating the image with references");
                        ("message", VStr message)])).
Proof.
  intros Hr Hall Hn.
  destruct (check_reference_images_throws w pre img post s Hall Hn) as [message Hc].
  exists message.
  apply (thrown_locally OpGenerateImageWithReferences w args (TypeError message) s);
    [simpl; auto | | reflexivity | reflexivity].
  cbn [validation]. unfold GenerateImageWithReferences.validate. rewrite Hr.
  unfold bind. cbn [isArray negb orb get_property String.eqb Ascii.eqb Bool.eqb
                     strict_equals].
  replace (Z.of_nat (List.length (pre ++ img :: post)%list) =? 0)%Z with false
    by (symmetry; apply Z.eqb_neq; rewrite length_app; simpl; lia).
  cbn [when ret]. exact Hc.
Qed.

(** ** The properties of the result envelope *)

(** C1.  The claim: for every tool and every parameter that its schema
    declares required, a call without that parameter returns
    [success: false] with an [error] that names the parameter, and the
    vendor is not called.  Three handlers do not check [promptText], which
    their schemas declare required: called without it and with the
    credential set, [GenerateImage], [GenerateVideoFromText] and
    [GenerateImageWithReferences] call the vendor with [promptText]
    undefined (and report what the vendor answers); with the credential
    unset, [GenerateImage] reports the missing credential, an error that
    does not name [promptText]. *)
Theorem promptText_is_not_checked :
  (In "promptText" (required (definition_of (apiTool_of OpGenerateImage)))
   /\ invoke OpGenerateImage
        (mock (Some "key") (Resolves (finished_task (VArr [VStr "https://cdn.example/img1.png"]))))
        []
      = ({| calls := [(textToImage, VObj [("model", VStr "gen4_image");
                                          ("promptText", VUndefined);
                                          ("ratio", VStr "1920:1080")])];
            console := [] |},
         Fulfilled (VObj [("success", VBool true);
                          ("taskId", VStr "task-1");
                          ("status", VStr "SUCCEEDED");
                          ("output", VArr [VStr "https://cdn.example/img1.png"]);
                          ("imageUrl", VStr "https://cdn.example/img1.png");
                          ("createdAt", VStr "2025-01-01T00:00:00.000Z");
                          ("model", VUndefined);
                          ("promptText", VUndefined);
                          ("ratio", VUndefined)])))
  /\ (In "promptText" (required (definition_of (apiTool_of OpGenerateVideoFromText)))
      /\ vendor_calls OpGenerateVideoFromText
           (mock (Some "key") (Resolves (finished_task (VArr [VStr "https://cdn.example/v.mp4"]))))
           []
         = [(textToVideo, VObj [("model", VStr "gen4_turbo");
                                ("promptText", VUndefined);
                                ("ratio", VStr "1280:720");
                                ("duration", VNum (Num 5))])])
  /\ (In "promptText" (required (definition_of (apiTool_of OpGenerateImageWithReferences)))
      /\ vendor_calls OpGenerateImageWithReferences
           (mock (Some "key") (Resolves (finished_task (VArr [VStr "https://cdn.example/img1.png"]))))
           [("referenceImages", VArr [reference "https://cdn.example/a.png"])]
         = [(textToImage, VObj [("model", VStr "gen4_image");
                                ("promptText", VUndefined);
                                ("ratio", VStr "1920:1080");
                                ("referenceImages",
                                 VArr [reference "https://cdn.example/a.png"])])])
  /\ result OpGenerateImage (mock None (Resolves VNull)) []
     = Fulfilled (VObj [("success", VBool false);
                        ("error", VStr "RUNWAY_API_KEY environment variable is not set.")])
  /\ includes "promptText" "RUNWAY_API_KEY environment variable is not set." = false.
Proof.
  repeat split; try reflexivity; simpl; auto.
Qed.

(** C2 as stated fails: not every input and not every vendor outcome ends
    in an envelope.  A handler called without argument rejects its promise,
    because the parameter list destructures the argument outside [try];
    when the vendor client throws [null], the [catch] block throws while it
    reads [error.status], and the promise is rejected after the call and
    the console line; and [CancelTask], for an error with status 400 whose
    [message] is a number, throws in its [catch] block at
    [error.message?.includes]. *)
Lemma envelope_is_not_total :
  (exists message,
     call OpGenerateImage
       (mock (Some "key") (Resolves (finished_task (VArr [VStr "https://cdn.example/img1.png"]))))
       VUndefined initial
     = (initial, Rejected (TypeError message)))
  /\ (exists message,
        invoke OpGetTaskStatus (mock (Some "key") (Rejects VNull))
          [("taskId", VStr "task-1")]
        = ({| calls := [(tasks_retrieve, VStr "task-1")];
              console := [("Error retrieving task status:", VNull)] |},
           Rejected (TypeError message)))
  /\ (exists message,
        invoke OpCancelTask
          (mock (Some "key")
             (Rejects (VObj [("status", VNum (Num 400)); ("message", VNum (Num 42))])))
          [("taskId", VStr "task-1")]
        = ({| calls := [(tasks_cancel, VStr "task-1")];
              console := [("Error canceling task:",
                           VObj [("status", VNum (Num 400)); ("message", VNum (Num 42))])] |},
           Rejected (TypeError message))).
Proof.
  split; [|split]; eexists; reflexivity.
Qed.

(** C2, amended.  Whatever value a handler is called with, other than
    [undefined] and [null], and whatever the vendor does (it answers, or it
    throws a value that the [catch] block can classify: any value but
    [undefined] and [null], a failed task included, and for [CancelTask]
    with status 400 one whose [message] is absent, a string or an array),
    the handler fulfils its promise with an envelope: an object that
    either has [success: true] and no [error] field, or has
    [success: false] and a non-empty [error] string; never both, never
    neither. *)
Theorem envelope_is_total op w argument :
  nullish argument = false ->
  vendor_throws_catchable op w ->
  exists s env,
    call op w argument initial = (s, Fulfilled (VObj env))
    /\ (success_shape env \/ failure_shape env)
    /\ ~ (success_shape env /\ failure_shape env).
Proof.
  intros Ha Hw. unfold call.
  destruct (destructure argument) as [args|] eqn:Hd;
    [|destruct argument; discriminate].
  destruct (handlers_return_envelopes op w args Hw initial) as [s [env [Hr He]]].
  exists s, env. split; [exact Hr | apply envelope_shapes; exact He].
Qed.

Lemma envelope_is_total_witness :
  exists s env,
    call OpCancelTask (mock (Some "key") (Rejects (api_error 400 "Task cannot be canceled")))
      (VObj [("taskId", VStr "task-1")]) initial = (s, Fulfilled (VObj env))
    /\ (success_shape env \/ failure_shape env)
    /\ ~ (success_shape env /\ failure_shape env).
Proof.
  apply envelope_is_total; [reflexivity|].
  apply mock_throws_catchable. reflexivity.
Defined.





(** C5.  For each of the six generation tools, when the vendor throws an
    error named "TaskFailedError" the handler answers [success: false]
    with an [error] of the form "<operation> task failed", [details] set
    to the error's [taskDetails], and [taskId] read from [taskDetails]
    when there are any. *)
Theorem failed_task_is_reported op w args e :
  In op generation ->
  passes (validation op w args) -> key_set w ->
  vendor_answer op w args = Some (Rejects e) ->
  nullish e = false ->
  get_property e "name" = VStr "TaskFailedError" ->
  result op w args
  = Fulfilled (VObj [("success", VBool false);
                     ("error", VStr (failed_message op));
                     ("details", get_property e "taskDetails");
                     ("taskId", optional_get (get_property e "taskDetails") "id")])
  /\ exists operation_name, failed_message op = operation_name ++ " task failed".
Proof.
  intros Hop Hv Hk Ha He Hn.
  destruct (vendor_answer_endpoint op w args _ Ha) as [ep [Hep Hr]].
  split.
  - unfold result, invoke. rewrite (rejected op w args ep e initial Hv Hk Hep Hr).
    rewrite (generation_catch_of op args Hop).
    rewrite (generation_catch_failed _ _ _ e _ He Hn). reflexivity.
  - apply generation_cases in Hop.
    destruct Hop as [-> | [-> | [-> | [-> | [-> | ->]]]]]; cbn [failed_message].
    + exists "Image generation". reflexivity.
    + exists "Image generation". reflexivity.
    + exists "Video generation". reflexivity.
    + exists "Video generation". reflexivity.
    + exists "Video-to-video generation". reflexivity.
    + exists "Video upscaling". reflexivity.
Qed.

Lemma failed_task_is_reported_witness :
  result OpUpscaleVideo (mock (Some "key") (Rejects task_failed_error))
    [("promptVideo", VStr "https://cdn.example/in.mp4")]
  = Fulfilled (VObj [("success", VBool false);
                     ("error", VStr "Video upscaling task failed");
                     ("details", VObj [("id", VStr "task-1");
                                       ("status", VStr "FAILED");
                                       ("failure", VStr "SAFETY.INPUT.TEXT")]);
                     ("taskId", VStr "task-1")]).
Proof.
  refine (proj1 (failed_task_is_reported OpUpscaleVideo
                   (mock (Some "key") (Rejects task_failed_error))
                   [("promptVideo", VStr "https://cdn.example/in.mp4")]
                   task_failed_error _ _ eq_refl eq_refl eq_refl eq_refl)).
  - simpl. auto 10.
  - intros s. reflexivity.
Defined.

(** C6 as stated fails, twice.  A finished task whose [output] is a list
    of one element, the empty string, has a first element, yet [imageUrl]
    is [null] and not that element.  And the parameters in the envelope
    are not the input parameters: they are read from the task, so that
    [promptText] and [ratio] given in the arguments come back [undefined]
    when the task does not carry them. *)
Lemma finished_task_counterexample :
  (exists env,
     result OpGenerateImage
       (mock (Some "key") (Resolves (finished_task (VArr [VStr ""]))))
       [("promptText", VStr "a red fox in snow")]
     = Fulfilled (VObj env)
     /\ own "success" env = Some (VBool true)
     /\ get_field env "output" = VArr [VStr ""]
     /\ get_field env "imageUrl" = VNull
     /\ get_field env "imageUrl" <> first_or_null (get_field env "output"))
  /\ (exists env,
        result OpGenerateImage
          (mock (Some "key")
             (Resolves (finished_task (VArr [VStr "https://cdn.example/img1.png"]))))
          [("promptText", VStr "a red fox in snow"); ("ratio", VStr "1024:1024")]
        = Fulfilled (VObj env)
        /\ own "success" env = Some (VBool true)
        /\ get_field env "imageUrl" = VStr "https://cdn.example/img1.png"
        /\ own "promptText" env = Some VUndefined
        /\ own "ratio" env = Some VUndefined
        /\ get_field env "promptText" <> VStr "a red fox in snow"
        /\ get_field env "ratio" <> VStr "1024:1024").
Proof.
  split; eexists; (split; [reflexivity|]); repeat split; discriminate.
Qed.

(** C6, amended.  For each generation tool, when the vendor answers with
    a finished task whose [output] is a list or absent, the envelope has
    [success: true] and no [error], repeats the task's [id] as [taskId]
    and the task's [status], [output] and [createdAt], gives for each
    parameter field ([model], [promptText], [ratio], ...) what the task
    carries under that name, and sets [imageUrl] (or [videoUrl]) to the
    first element of [output] when that element is truthy, and to [null]
    otherwise: when [output] is absent or empty, and also when its first
    element is falsy, such as an empty string. *)
Theorem finished_task_is_reported op w args task :
  In op generation ->
  passes (validation op w args) -> key_set w ->
  vendor_answer op w args = Some (Resolves task) ->
  nullish task = false ->
  output_list (get_property task "output") = true ->
  exists env,
    result op w args = Fulfilled (VObj env)
    /\ own "success" env = Some (VBool true)
    /\ own "error" env = None
    /\ get_field env "taskId" = get_property task "id"
    /\ Forall (fun k => get_field env k = get_property task k) (echoed op)
    /\ get_field env (locator_field op) = first_truthy (get_property task "output").
Proof.
  intros Hop Hv Hk Ha Ht Ho.
  destruct (vendor_answer_endpoint op w args _ Ha) as [ep [Hep Hr]].
  unfold result, invoke. rewrite (resolved op w args ep task initial Hv Hk Hep Hr).
  apply generation_cases in Hop.
  destruct Hop as [-> | [-> | [-> | [-> | [-> | ->]]]]]; cbn [respond_of];
    unfold GenerateImage.respond, GenerateImageWithReferences.respond,
      GenerateVideoFromText.respond, GenerateVideoFromImage.respond,
      GenerateVideoFromVideo.respond, UpscaleVideo.respond;
    unfold async, try_catch;
    repeat first [ rewrite (bind_GetV_there task _ _ _ Ht)
                 | rewrite (bind_first_output _ _ _ Ho) ];
    unfold return_; cbn [snd];
    eexists; (split; [reflexivity|]);
    cbn [own get_field echoed locator_field String.eqb Ascii.eqb Bool.eqb];
    repeat split; repeat constructor.
Qed.

Lemma finished_task_is_reported_witness :
  exists env,
    result OpGenerateImage
      (mock (Some "key") (Resolves (finished_task (VArr [VStr "https://cdn.example/img1.png"]))))
      [("promptText", VStr "a red fox in snow")]
    = Fulfilled (VObj env)
    /\ own "success" env = Some (VBool true)
    /\ own "error" env = None
    /\ get_field env "taskId" = VStr "task-1"
    /\ Forall (fun k => get_field env k
                        = get_property (finished_task (VArr [VStr "https://cdn.example/img1.png"])) k)
              (echoed OpGenerateImage)
    /\ get_field env "imageUrl" = VStr "https://cdn.example/img1.png".
Proof.
  refine (finished_task_is_reported OpGenerateImage
            (mock (Some "key") (Resolves (finished_task (VArr [VStr "https://cdn.example/img1.png"]))))
            [("promptText", VStr "a red fox in snow")]
            (finished_task (VArr [VStr "https://cdn.example/img1.png"]))
            _ _ eq_refl eq_refl eq_refl eq_refl).
  - simpl. auto.
  - intros s. reflexivity.
Defined.

(** C7 as stated fails: an entry of [referenceImages] that is [null] lacks
    a [uri], yet the answer names no index.  Reading [img.uri] throws, and
    the handler logs the [TypeError] and gives its generic answer. *)
Lemma null_reference_is_not_located :
  exists message,
    invoke OpGenerateImageWithReferences (mock (Some "key") (Resolves VNull))
      [("promptText", VStr "@a next to @b");
       ("referenceImages", VArr [reference "https://cdn.example/a.png"; VNull])]
    = ({| calls := [];
          console := [("Error generating image with references:", TypeError message)] |},
       Fulfilled (VObj [("success", VBool false);
                        ("error", VStr "An error occurred while generating the image with references");
                        ("message", VStr message)]))
    /\ carries_uri VNull = false
    /\ includes "index" "An error occurred while generating the image with references"
       = false.
Proof.
  eexists. split; [reflexivity|]. split; reflexivity.
Qed.

(** C7, amended.  [GenerateImageWithReferences] rejects an empty
    [referenceImages] list, and a list of which some entry lacks a [uri],
    with [success: false] and without calling the vendor.  The first entry
    without a [uri] decides the answer: when it is an object (any value but
    [undefined] and [null]) the message names its index; when it is
    [undefined] or [null] the handler logs the [TypeError] and gives its
    generic answer.  For every list of 1 to 4 entries that all carry a
    [uri] the checks pass and, with the credential set, the vendor is
    called with that list. *)
Theorem reference_images_are_validated w args :
  (get_field args "referenceImages" = VArr [] ->
   invoke OpGenerateImageWithReferences w args
   = (initial,
      Fulfilled (VObj [("success", VBool false);
                       ("error", VStr "referenceImages must be a non-empty array")])))
  /\
  (forall refs,
     get_field args "referenceImages" = VArr refs ->
     Exists (fun img => carries_uri img = false) refs ->
     exists i,
       (i < List.length refs)%nat
       /\ carries_uri (nth i refs VUndefined) = false
       /\ (forall j, (j < i)%nat -> carries_uri (nth j refs VUndefined) = true)
       /\ if nullish (nth i refs VUndefined)
          then exists message,
                 invoke OpGenerateImageWithReferences w args
                 = ({| calls := [];
                       console := [("Error generating image with references:",
                                    TypeError message)] |},
                    Fulfilled (VObj [("success", VBool false);
                                     ("error", VStr "An error occurred while generating the image with references");
                                     ("message", VStr message)]))
          else invoke OpGenerateImageWithReferences w args
               = (initial,
                  Fulfilled (VObj [("success", VBool false);
                                   ("error", VStr ("Reference image at index "
                                                   ++ index_key i
                                                   ++ " must have a 'uri' property"))])))
  /\
  (forall refs,
     get_field args "referenceImages" = VArr refs ->
     (1 <= List.length refs <= 4)%nat ->
     Forall (fun img => carries_uri img = true) refs ->
     passes (validation OpGenerateImageWithReferences w args)
     /\ (key_set w ->
         forwarded "referenceImages" (VArr refs)
           (vendor_calls OpGenerateImageWithReferences w args))).
Proof.
  split; [|split].
  - intros Hr. apply rejected_locally. intros s.
    apply image_references_empty. exact Hr.
  - intros refs Hr Hex.
    destruct (first_without_uri refs Hex) as [pre [img [post [-> [Hpre Himg]]]]].
    exists (List.length pre). split; [rewrite length_app; simpl; lia|].
    split; [rewrite nth_middle; exact Himg|].
    split.
    { intros j Hj. rewrite app_nth1 by exact Hj.
      apply (proj1 (Forall_nth _ pre) Hpre j VUndefined Hj). }
    rewrite nth_middle. destruct (nullish img) eqn:Hn.
    + exact (image_references_null w args pre img post initial Hr Hpre Hn).
    + apply rejected_locally. intros s.
      apply (image_references_lacking w args pre img post s Hr Hpre).
      unfold lacks_uri. rewrite Himg, Hn. reflexivity.
  - intros refs Hr Hlen Hall.
    assert (Hv : passes (validation OpGenerateImageWithReferences w args)).
    { apply (image_references_pass w args refs Hr); [|exact Hall].
      intros ->. simpl in Hlen. lia. }
    split; [exact Hv|]. intros Hk.
    apply (forwarded_dispatched OpGenerateImageWithReferences w args textToImage
             _ _ (GenerateImageWithReferences.params args) Hv Hk eq_refl eq_refl).
    unfold GenerateImageWithReferences.params, add_seed. rewrite Hr.
    destruct (negb (strict_equals (get_field args "seed") VUndefined)); reflexivity.
Qed.

Lemma reference_images_are_validated_witness :
  invoke OpGenerateImageWithReferences (mock (Some "key") (Resolves VNull))
    [("promptText", VStr "@a next to @b");
     ("referenceImages",
      VArr [reference "https://cdn.example/a.png"; VObj [("tag", VStr "b")]])]
  = (initial,
     Fulfilled (VObj [("success", VBool false);
                      ("error", VStr "Reference image at index 1 must have a 'uri' property")])).
Proof.
  pose proof (proj1 (proj2 (reference_images_are_validated
                              (mock (Some "key") (Resolves VNull))
                              [("promptText", VStr "@a next to @b");
                               ("referenceImages",
                                VArr [reference "https://cdn.example/a.png";
                                      VObj [("tag", VStr "b")]])]))
                [reference "https://cdn.example/a.png"; VObj [("tag", VStr "b")]]
                eq_refl) as H.
  destruct H as [i [Hi [Hc [_ H]]]].
  - apply Exists_cons_tl. apply Exists_cons_hd. reflexivity.
  - destruct i as [|[|i]]; [discriminate Hc | exact H | simpl in Hi; lia].
Defined.

(** C8 as stated fails: the empty string given for [style] is not in the
    request that [GenerateImage] sends. *)
Lemma empty_style_is_dropped :
  exists params,
    vendor_calls OpGenerateImage
      (mock (Some "key") (Resolves (finished_task (VArr []))))
      [("promptText", VStr "a red fox in snow"); ("style", VStr "")]
    = [(textToImage, VObj params)]
    /\ own "style" params = None
    /\ ~ forwarded "style" (VStr "")
          (vendor_calls OpGenerateImage
             (mock (Some "key") (Resolves (finished_task (VArr []))))
             [("promptText", VStr "a red fox in snow"); ("style", VStr "")]).
Proof.
  eexists. split; [reflexivity|]. split; [reflexivity|].
  intros [ep [p [Hc Ho]]]. injection Hc as _ <-. discriminate Ho.
Qed.

(** C8, amended.  For every tool that calls the vendor and every parameter
    for which its schema declares an [enum], a provided value, in the
    [enum] or not, is not checked: the checks of the handler do not depend
    on it, it is put unchanged in the request of the one vendor call, and
    when the vendor rejects the call with an error that is not a failed
    task, the handler gives the generic answer.  Provided means: any value
    but [undefined] for [model] and [ratio], a truthy value for [style]
    and [status]. *)
Theorem enumerated_values_are_forwarded op w args k v ep :
  enumerated op k = true ->
  endpoint_of op = Some ep ->
  get_field args k = v ->
  provided k v = true ->
  passes (validation op w args) -> key_set w ->
  (forall v', validation op w (set_field k v' args) = validation op w args)
  /\ forwarded k v (vendor_calls op w args)
  /\ forall e,
       vendor w ep (request_of op w args) = Rejects e ->
       nullish e = false ->
       strict_equals (get_property e "name") (VStr "TaskFailedError") = false ->
       result op w args
       = Fulfilled (VObj [("success", VBool false);
                          ("error", VStr (generic_message op));
                          ("message", get_property e "message")]).
Proof.
  intros He Hep Hg Hp Hv Hk.
  split; [intros v'; apply validation_ignores_enumerated; exact He|]. split.
  - pose proof (enumerated_cases op k He) as Hc.
    destruct Hc as [-> | [-> | [[-> ->] | [-> Hop]]]];
      unfold provided in Hp; cbn in Hp; try apply strict_equals_undefined in Hp.
    + destruct op; try discriminate He; try discriminate Hep;
        (eapply forwarded_dispatched;
         [exact Hv | exact Hk | reflexivity | reflexivity | ]);
        params_cases; cbn [own set_field String.eqb Ascii.eqb Bool.eqb];
        rewrite (param_provided args _ _ v Hg Hp); reflexivity.
    + destruct op; try discriminate He; try discriminate Hep;
        (eapply forwarded_dispatched;
         [exact Hv | exact Hk | reflexivity | reflexivity | ]);
        params_cases; cbn [own set_field String.eqb Ascii.eqb Bool.eqb];
        rewrite (param_provided args _ _ v Hg Hp); reflexivity.
    + eapply forwarded_dispatched;
        [exact Hv | exact Hk | reflexivity | reflexivity | ].
      unfold GenerateImage.params, add_if_truthy. rewrite Hg, Hp.
      unfold add_seed.
      destruct (negb (strict_equals (get_field args "seed") VUndefined)); reflexivity.
    + destruct Hop as [-> | ->]; [|discriminate Hep].
      eapply forwarded_dispatched;
        [exact Hv | exact Hk | reflexivity | reflexivity | ].
      unfold list_tasks_params, add_if_truthy. rewrite Hg, Hp.
      destruct (ToBoolean (get_field args "cursor")); reflexivity.
  - intros e Hr Hne Hname. unfold result, invoke.
    rewrite (rejected op w args ep e initial Hv Hk Hep Hr).
    pose proof (enumerated_cases op k He) as Hc.
    destruct Hc as [-> | [-> | [[-> ->] | [-> [-> | ->]]]]];
      try destruct op; try discriminate He; try discriminate Hep; cbn [catch_of];
      try (rewrite (generation_catch_generic _ _ _ e _ Hne Hname); reflexivity).
    unfold list_tasks_catch, async, bind, console_error.
    rewrite (GetV_there e) by exact Hne. reflexivity.
Qed.

Lemma enumerated_values_are_forwarded_witness :
  forwarded "ratio" (VStr "16:9")
    (vendor_calls OpGenerateVideoFromImage
       (mock (Some "key") (Rejects (api_error 400 "Invalid ratio")))
       [("promptImage", VStr "https://cdn.example/in.png"); ("ratio", VStr "16:9")])
  /\ result OpGenerateVideoFromImage
       (mock (Some "key") (Rejects (api_error 400 "Invalid ratio")))
       [("promptImage", VStr "https://cdn.example/in.png"); ("ratio", VStr "16:9")]
     = Fulfilled (VObj [("success", VBool false);
                        ("error", VStr "An error occurred while generating the video from image");
                        ("message", VStr "Invalid ratio")]).
Proof.
  assert (H := enumerated_values_are_forwarded OpGenerateVideoFromImage
                 (mock (Some "key") (Rejects (api_error 400 "Invalid ratio")))
                 [("promptImage", VStr "https://cdn.example/in.png"); ("ratio", VStr "16:9")]
                 "ratio" (VStr "16:9") imageToVideo
                 eq_refl eq_refl eq_refl eq_refl (fun s => eq_refl) eq_refl).
  split; [exact (proj1 (proj2 H)) | exact (proj2 (proj2 H) _ eq_refl eq_refl eq_refl)].
Defined.

(** C9.  The two versions of [ListTasks] differ.  With the credential set,
    one always answers "Task listing not supported" and calls nothing; the
    other calls [tasks.list] once, with [limit] capped at 100 and with
    [status] and [cursor] when they are truthy, and turns the listed tasks
    into a [success: true] envelope.  So there are a world and arguments
    for which the two give different answers. *)
Theorem list_tasks_versions_differ :
  (forall w args,
     key_set w ->
     (invoke OpListTasksUnsupported w args
      = (initial, Fulfilled ListTasksUnsupported.unsupported)
      /\ get_property ListTasksUnsupported.unsupported "success" = VBool false
      /\ get_property ListTasksUnsupported.unsupported "error"
         = VStr "Task listing not supported")
     /\ vendor_calls OpListTasks w args = [(tasks_list, VObj (list_tasks_params w args))]
     /\ (forall n, get_field args "limit" = VNum (Num n) ->
                   own "limit" (list_tasks_params w args)
                   = Some (VNum (Num (Z.min n 100))))
     /\ (get_field args "limit" = VUndefined ->
         own "limit" (list_tasks_params w args) = Some (VNum (Num 10)))
     /\ own "status" (list_tasks_params w args)
        = (if ToBoolean (get_field args "status")
           then Some (get_field args "status") else None)
     /\ own "cursor" (list_tasks_params w args)
        = (if ToBoolean (get_field args "cursor")
           then Some (get_field args "cursor") else None)
     /\ (forall tasks l,
           vendor w tasks_list (VObj (list_tasks_params w args)) = Resolves tasks ->
           get_property tasks "data" = VArr l ->
           Forall (fun task => nullish task = false) l ->
           result OpListTasks w args
           = Fulfilled (VObj [("success", VBool true);
                              ("tasks", VArr (map summary_of l));
                              ("hasMore", get_property tasks "hasMore");
                              ("nextCursor", get_property tasks "nextCursor");
                              ("total", get_property tasks "total")])))
  /\ exists w args,
       key_set w
       /\ result OpListTasks w args <> result OpListTasksUnsupported w args.
Proof.
  split.
  - intros w args Hk. split; [|split; [|split; [|split; [|split; [|split]]]]].
    + split; [|split; reflexivity].
      apply (list_tasks_unsupported w args initial Hk).
    + apply (invoke_dispatched OpListTasks w args tasks_list (fun s => eq_refl) Hk eq_refl).
    + intros n. apply list_tasks_limit.
    + intros H. unfold list_tasks_params, param. rewrite H. params_cases; reflexivity.
    + apply list_tasks_filters.
    + apply list_tasks_filters.
    + intros tasks l. apply list_tasks_listed. exact Hk.
  - exists (mock (Some "key") (Resolves (VObj [("data", VArr [])]))), [].
    split; [reflexivity | discriminate].
Qed.

Lemma list_tasks_versions_differ_witness :
  result OpListTasks
    (mock (Some "key")
       (Resolves (VObj [("data", VArr [finished_task (VArr [])]); ("hasMore", VBool false)])))
    [("limit", VNum (Num 500))]
  = Fulfilled (VObj [("success", VBool true);
                     ("tasks", VArr [summary_of (finished_task (VArr []))]);
                     ("hasMore", VBool false);
                     ("nextCursor", VUndefined);
                     ("total", VUndefined)])
  /\ own "limit" (list_tasks_params
                    (mock (Some "key")
                       (Resolves (VObj [("data", VArr [finished_task (VArr [])]);
                                        ("hasMore", VBool false)])))
                    [("limit", VNum (Num 500))])
     = Some (VNum (Num 100)).
Proof.
  assert (H := proj1 list_tasks_versions_differ
                 (mock (Some "key")
                    (Resolves (VObj [("data", VArr [finished_task (VArr [])]);
                                     ("hasMore", VBool false)])))
                 [("limit", VNum (Num 500))] eq_refl).
  destruct H as [_ [_ [Hlimit [_ [_ [_ Hlisted]]]]]].
  split.
  - refine (Hlisted _ [finished_task (VArr [])] eq_refl eq_refl _).
    repeat constructor.
  - exact (Hlimit 500%Z eq_refl).
Defined.

(** C10.  The schemas of [GenerateImageWithReferences] and
    [GenerateVideoFromVideo] declare [maxItems: 4] for [referenceImages],
    but the handlers do not enforce it: for every list of one or more
    entries that all carry a [uri], of any length, the checks on
    [referenceImages] pass and the list is sent to the vendor unchanged. *)
Theorem reference_image_bound_is_not_enforced w args refs :
  get_field args "referenceImages" = VArr refs ->
  (1 <= List.length refs)%nat ->
  Forall (fun img => carries_uri img = true) refs ->
  declared_maxItems OpGenerateImageWithReferences "referenceImages" = Some 4%nat
  /\ declared_maxItems OpGenerateVideoFromVideo "referenceImages" = Some 4%nat
  /\ passes (validation OpGenerateImageWithReferences w args)
  /\ (key_set w ->
      forwarded "referenceImages" (VArr refs)
        (vendor_calls OpGenerateImageWithReferences w args))
  /\ (ToBoolean (get_field args "promptVideo") = true ->
      ToBoolean (get_field args "promptText") = true ->
      passes (validation OpGenerateVideoFromVideo w args)
      /\ (key_set w ->
          forwarded "referenceImages" (VArr refs)
            (vendor_calls OpGenerateVideoFromVideo w args))).
Proof.
  intros Hr Hlen Hall.
  assert (Hne : refs <> []) by (intros ->; simpl in Hlen; lia).
  assert (Hi : passes (validation OpGenerateImageWithReferences w args))
    by exact (image_references_pass w args refs Hr Hne Hall).
  split; [reflexivity|]. split; [reflexivity|]. split; [exact Hi|]. split.
  - intros Hk.
    apply (forwarded_dispatched OpGenerateImageWithReferences w args textToImage
             _ _ (GenerateImageWithReferences.params args) Hi Hk eq_refl eq_refl).
    rewrite <- Hr. params_cases; reflexivity.
  - intros Hpv Hpt.
    assert (Hv : passes (validation OpGenerateVideoFromVideo w args))
      by exact (video_references_pass w args refs Hpv Hpt Hr Hall).
    split; [exact Hv|]. intros Hk.
    apply (forwarded_dispatched OpGenerateVideoFromVideo w args videoToVideo
             _ _ _ Hv Hk eq_refl eq_refl).
    unfold param. rewrite Hr.
    destruct refs as [|img refs]; [contradiction|].
    unfold GenerateVideoFromVideo.params, add_seed, param. rewrite Hr.
    cbn [get_property String.eqb Ascii.eqb Bool.eqb ToNumber number_lt].
    replace (0 <? Z.of_nat (List.length (img :: refs)))%Z with true
      by (symmetry; apply Z.ltb_lt; simpl List.length; lia).
    destruct (negb (strict_equals (get_field args "seed") VUndefined)); reflexivity.
Qed.

Lemma reference_image_bound_is_not_enforced_witness :
  forwarded "referenceImages"
    (VArr [reference "u1"; reference "u2"; reference "u3"; reference "u4"; reference "u5"])
    (vendor_calls OpGenerateImageWithReferences
       (mock (Some "key") (Resolves (finished_task (VArr []))))
       [("promptText", VStr "five references");
        ("referenceImages",
         VArr [reference "u1"; reference "u2"; reference "u3"; reference "u4"; reference "u5"])]).
Proof.
  refine (proj1 (proj2 (proj2 (proj2
           (reference_image_bound_is_not_enforced
              (mock (Some "key") (Resolves (finished_task (VArr []))))
              [("promptText", VStr "five references");
               ("referenceImages",
                VArr [reference "u1"; reference "u2"; reference "u3"; reference "u4";
                      reference "u5"])]
              [reference "u1"; reference "u2"; reference "u3"; reference "u4"; reference "u5"]
              eq_refl _ _)))) eq_refl).
  - simpl. lia.
  - repeat constructor.
Defined.

(** ** Further properties of the handlers *)

Lemma once_quiet {A} c (m : M A) : quiet m -> at_most_once c m.
Proof. intros H s. left. apply H. Qed.

Lemma once_after_quiet {A B} c (m : M A) (k : A -> M B) :
  quiet m -> (forall a, at_most_once c (k a)) -> at_most_once c (bind m k).
Proof.
  intros Hm Hk s. unfold bind. specialize (Hm s).
  destruct (m s) as [s' [a|v|e]]; simpl in *; try (left; exact Hm).
  destruct (Hk a s') as [H|H]; rewrite H, Hm; auto.
Qed.

Lemma once_after_GetV {B} c v f (k : value -> M B) :
  at_most_once c (k (get_property v f)) -> at_most_once c (bind (GetV v f) k).
Proof.
  intros Hk s. destruct v; try (left; reflexivity); exact (Hk s).
Qed.

Lemma once_await {B} w ep arg (k : value -> M B) :
  (forall v, quiet (k v)) -> at_most_once (ep, arg) (bind (await_client w ep arg) k).
Proof.
  intros Hk s. right. unfold bind, await_client.
  destruct (vendor w ep arg) as [v|e]; [|reflexivity].
  rewrite (Hk v). reflexivity.
Qed.

Lemma once_try_catch {A} c (body : M A) handler :
  at_most_once c body -> (forall e, quiet (handler e)) ->
  at_most_once c (try_catch body handler).
Proof.
  intros Hb Hh s. unfold try_catch. specialize (Hb s).
  destruct (body s) as [s' [a|v|e]]; simpl in *; try exact Hb.
  rewrite Hh. exact Hb.
Qed.

Ltac once_body w args :=
  repeat first
    [ apply once_await; intros ?;
      first [ apply (quiet_respond_of OpGenerateImage w args)
            | apply (quiet_respond_of OpGenerateImageWithReferences w args)
            | apply (quiet_respond_of OpGenerateVideoFromText w args)
            | apply (quiet_respond_of OpGenerateVideoFromImage w args)
            | apply (quiet_respond_of OpGenerateVideoFromVideo w args)
            | apply (quiet_respond_of OpUpscaleVideo w args)
            | apply (quiet_respond_of OpGetTaskStatus w args)
            | apply (quiet_respond_of OpListTasks w args)
            | apply (quiet_respond_of OpCancelTask w args) ]
    | apply once_after_GetV
    | apply once_after_quiet;
      [ first [ apply (quiet_validation OpGenerateImageWithReferences w args)
              | apply (quiet_validation OpGenerateVideoFromImage w args)
              | apply (quiet_validation OpGenerateVideoFromVideo w args)
              | apply (quiet_validation OpUpscaleVideo w args)
              | apply (quiet_validation OpGetTaskStatus w args)
              | apply (quiet_validation OpCancelTask w args)
              | apply quiet_when; apply quiet_return ]
      | intros ? ] ].

Lemma handler_calls_once op w args ep s :
  endpoint_of op = Some ep ->
  calls (fst (function (apiTool_of op) w args s)) = calls s
  \/ calls (fst (function (apiTool_of op) w args s))
     = (calls s ++ [(ep, request_of op w args)])%list.
Proof.
  intros Hep. revert s.
  destruct op; try discriminate Hep; injection Hep as <-; intros s;
    open_handler; rewrite fst_async; revert s;
    apply once_try_catch;
    first [ intros e;
            first [ apply (quiet_catch_of OpGenerateImage args)
                  | apply (quiet_catch_of OpGenerateImageWithReferences args)
                  | apply (quiet_catch_of OpGenerateVideoFromText args)
                  | apply (quiet_catch_of OpGenerateVideoFromImage args)
                  | apply (quiet_catch_of OpGenerateVideoFromVideo args)
                  | apply (quiet_catch_of OpUpscaleVideo args)
                  | apply (quiet_catch_of OpGetTaskStatus args)
                  | apply (quiet_catch_of OpListTasks args)
                  | apply (quiet_catch_of OpCancelTask args) ]
          | once_body w args ].
Qed.

(** X1.  Whatever the arguments and the world, a handler makes no vendor
    call or exactly one: a call on its own client operation, with the
    request built from the arguments.  Nothing is retried. *)
Theorem at_most_one_vendor_call op w args :
  vendor_calls op w args = []
  \/ exists ep, endpoint_of op = Some ep
                /\ vendor_calls op w args = [(ep, request_of op w args)].
Proof.
  unfold vendor_calls, invoke.
  destruct (endpoint_of op) as [ep|] eqn:Hep.
  - destruct (handler_calls_once op w args ep initial Hep) as [H|H];
      [left; exact H | right; exists ep; split; [reflexivity | exact H]].
  - left. destruct op; try discriminate Hep.
    open_handler. rewrite fst_async.
    assert (Hq : quiet (try_catch
                          (when (negb (ToBoolean (process_env_RUNWAY_API_KEY w)))
                                (return_ missing_key_envelope) ;;
                           return_ ListTasksUnsupported.unsupported)
                          list_tasks_catch)).
    { apply quiet_try_catch.
      - apply quiet_bind; [apply quiet_when; apply quiet_return | intros _; apply quiet_return].
      - apply (quiet_catch_of OpListTasksUnsupported args). }
    exact (Hq initial).
Qed.

Lemma silent_ret {A} (a : A) : silent (ret a).
Proof. intros s. reflexivity. Qed.

Lemma silent_return {A} v : silent (@return_ A v).
Proof. intros s. reflexivity. Qed.

Lemma silent_throw {A} e : silent (@throw A e).
Proof. intros s. reflexivity. Qed.

Lemma silent_bind {A B} (m : M A) (k : A -> M B) :
  silent m -> (forall a, silent (k a)) -> silent (bind m k).
Proof.
  intros Hm Hk s. unfold bind. specialize (Hm s).
  destruct (m s) as [s' [a|v|e]]; simpl in *; auto.
  rewrite Hk. exact Hm.
Qed.

Lemma silent_GetV v k : silent (GetV v k).
Proof. intros s. destruct v; reflexivity. Qed.

Lemma silent_when c stmt : silent stmt -> silent (when c stmt).
Proof. intros H. destruct c; [exact H | apply silent_ret]. Qed.

Lemma silent_await w ep arg : silent (await_client w ep arg).
Proof. intros s. unfold await_client. destruct (vendor w ep arg); reflexivity. Qed.

Lemma silent_for_range body : (forall i, silent (body i)) ->
  forall count from, silent (for_range from count body).
Proof.
  intros H. induction count as [|count IH]; intros from; simpl.
  - apply silent_ret.
  - apply silent_bind; [apply H | intros _; apply IH].
Qed.

Lemma silent_mapM cb : (forall x, silent (cb x)) -> forall l, silent (mapM cb l).
Proof.
  intros H. induction l as [|x l IH]; simpl.
  - apply silent_ret.
  - apply silent_bind; [apply H | intros y].
    apply silent_bind; [apply IH | intros ys]. apply silent_ret.
Qed.

Ltac silent_body :=
  repeat first
    [ apply silent_ret | apply silent_return | apply silent_throw
    | apply silent_GetV | apply silent_await
    | apply silent_when
    | apply silent_for_range; intros ?
    | apply silent_mapM; intros ?
    | match goal with |- silent (if ?c then _ else _) => destruct c end
    | match goal with |- silent (match ?c with _ => _ end) => destruct c end
    | apply silent_bind; [ | intros ? ] ].

Lemma silent_validation op w args : silent (validation op w args).
Proof.
  destruct op; cbn [validation];
    unfold GenerateImageWithReferences.validate, GenerateVideoFromImage.validate,
      GenerateVideoFromVideo.validate, UpscaleVideo.validate,
      GetTaskStatus.validate, CancelTask.validate,
      check_reference_images, check_reference_image;
    silent_body.
Qed.

Lemma silent_respond_of op w args answer : silent (respond_of op w args answer).
Proof.
  destruct op; cbn [respond_of];
    unfold GenerateImage.respond, GenerateImageWithReferences.respond,
      GenerateVideoFromText.respond, GenerateVideoFromImage.respond,
      GenerateVideoFromVideo.respond, UpscaleVideo.respond,
      GetTaskStatus.respond, CancelTask.respond, ListTasks.respond,
      ListTasks.array_map, ListTasks.summary, first_output;
    silent_body.
Qed.

Lemma catch_of_logs op args e s :
  fst (catch_of op args e s) = logged s (console_label op) e
  /\ reports_failure (snd (catch_of op args e s)).
Proof.
  destruct (nullish e) eqn:Hn.
  - destruct e; try discriminate Hn; destruct op; split; first [reflexivity | exact I].
  - destruct op; cbn [catch_of console_label];
      unfold generation_catch, GetTaskStatus.catch, CancelTask.catch, list_tasks_catch,
        CancelTask.optional_includes, bind, console_error;
      rewrite !(GetV_there e) by exact Hn; unfold ret, return_, throw;
      repeat match goal with
             | |- context [if ?c then _ else _] => destruct c
             | |- context [match get_property e "message" with _ => _ end] =>
                 destruct (get_property e "message")
             end;
      cbn [fst snd reports_failure];
      (split; [reflexivity | first [exact I | eexists; split; reflexivity]]).
Qed.

Ltac silent_handler w args :=
  repeat first
    [ apply (silent_validation OpGenerateImageWithReferences w args)
    | apply (silent_validation OpGenerateVideoFromImage w args)
    | apply (silent_validation OpGenerateVideoFromVideo w args)
    | apply (silent_validation OpUpscaleVideo w args)
    | apply (silent_validation OpGetTaskStatus w args)
    | apply (silent_validation OpCancelTask w args)
    | apply (silent_respond_of OpGenerateImage w args)
    | apply (silent_respond_of OpGenerateImageWithReferences w args)
    | apply (silent_respond_of OpGenerateVideoFromText w args)
    | apply (silent_respond_of OpGenerateVideoFromImage w args)
    | apply (silent_respond_of OpGenerateVideoFromVideo w args)
    | apply (silent_respond_of OpUpscaleVideo w args)
    | apply (silent_respond_of OpGetTaskStatus w args)
    | apply (silent_respond_of OpListTasks w args)
    | apply (silent_respond_of OpCancelTask w args)
    | apply silent_return | apply silent_GetV | apply silent_await
    | apply silent_when
    | apply silent_bind; [ | intros ? ] ].

Lemma raises_ret {A} (a : A) E : raises (ret a) E.
Proof. intros s e H. discriminate H. Qed.

Lemma raises_return {A} v E : raises (@return_ A v) E.
Proof. intros s e H. discriminate H. Qed.

Lemma raises_throw {A} e (E : value -> Prop) : E e -> raises (@throw A e) E.
Proof. intros He s e' H. injection H as <-. exact He. Qed.

Lemma raises_bind {A B} (m : M A) (k : A -> M B) E :
  raises m E -> (forall a, raises (k a) E) -> raises (bind m k) E.
Proof.
  intros Hm Hk s e. unfold bind. specialize (Hm s).
  destruct (m s) as [s' [a|v|e']]; simpl in *.
  - apply Hk.
  - discriminate.
  - intros H. injection H as <-. apply Hm. reflexivity.
Qed.

Lemma raises_GetV v k (E : value -> Prop) :
  (forall message, E (TypeError message)) -> raises (GetV v k) E.
Proof.
  intros HE s e. destruct v; simpl; intros H; try discriminate H;
    injection H as <-; apply HE.
Qed.

Lemma raises_after_GetV {B} v f (k : value -> M B) (E : value -> Prop) :
  (forall message, E (TypeError message)) ->
  raises (k (get_property v f)) E -> raises (bind (GetV v f) k) E.
Proof.
  intros HE Hk s e. destruct v; try exact (Hk s e);
    simpl; intros H; injection H as <-; apply HE.
Qed.

Lemma raises_when c stmt E : raises stmt E -> raises (when c stmt) E.
Proof. intros H. destruct c; [exact H | apply raises_ret]. Qed.

Lemma raises_await w ep arg (E : value -> Prop) :
  (forall e, vendor w ep arg = Rejects e -> E e) -> raises (await_client w ep arg) E.
Proof.
  intros HE s e. unfold await_client.
  destruct (vendor w ep arg) as [v|e'] eqn:Hv; simpl; intros H; [discriminate H|].
  injection H as <-. apply HE. reflexivity.
Qed.

Lemma raises_for_range body E : (forall i, raises (body i) E) ->
  forall count from, raises (for_range from count body) E.
Proof.
  intros H. induction count as [|count IH]; intros from; simpl.
  - apply raises_ret.
  - apply raises_bind; [apply H | intros _; apply IH].
Qed.

Lemma raises_mapM cb E : (forall x, raises (cb x) E) -> forall l, raises (mapM cb l) E.
Proof.
  intros H. induction l as [|x l IH]; simpl.
  - apply raises_ret.
  - apply raises_bind; [apply H | intros y].
    apply raises_bind; [apply IH | intros ys]. apply raises_ret.
Qed.

Ltac raises_body :=
  repeat first
    [ apply raises_ret | apply raises_return
    | apply raises_throw; left; eexists; reflexivity
    | apply raises_GetV; intros ?; left; eexists; reflexivity
    | apply raises_await; intros ? ?; right; eexists; split; [reflexivity | eassumption]
    | apply raises_when
    | apply raises_for_range; intros ?
    | apply raises_mapM; intros ?
    | match goal with |- raises (if ?c then _ else _) _ => destruct c end
    | match goal with |- raises (match ?c with _ => _ end) _ => destruct c end
    | apply raises_after_GetV; [ intros ?; left; eexists; reflexivity | ]
    | apply raises_bind; [ | intros ? ] ].

Ltac raises_handler :=
  unfold GenerateImageWithReferences.validate, GenerateVideoFromImage.validate,
    GenerateVideoFromVideo.validate, UpscaleVideo.validate,
    GetTaskStatus.validate, CancelTask.validate,
    check_reference_images, check_reference_image,
    GenerateImage.respond, GenerateImageWithReferences.respond,
    GenerateVideoFromText.respond, GenerateVideoFromImage.respond,
    GenerateVideoFromVideo.respond, UpscaleVideo.respond,
    GetTaskStatus.respond, CancelTask.respond, ListTasks.respond,
    ListTasks.array_map, ListTasks.summary, first_output;
  raises_body.

Lemma handler_shape op w args :
  exists body,
    silent body
    /\ raises body (raised op w args)
    /\ forall s, function (apiTool_of op) w args s
                 = async (try_catch body (catch_of op args)) s.
Proof.
  destruct op;
    (eexists; split; [ shelve | split; [ shelve | intros s; open_handler; reflexivity ] ]).
  Unshelve.
  all: match goal with
       | |- silent _ => silent_handler w args
       | |- raises _ _ => raises_handler
       end.
Qed.


(** X3.  [GetTaskStatus], for a task the vendor answers with: one call of
    [tasks.retrieve] with the requested id, nothing on the console, and a
    success envelope that copies thirteen fields of the task ([id] as
    [taskId]); a field the task lacks is [undefined]. *)
Theorem task_status_is_reported w args task :
  key_set w -> ToBoolean (get_field args "taskId") = true ->
  vendor w tasks_retrieve (get_field args "taskId") = Resolves task ->
  nullish task = false ->
  invoke OpGetTaskStatus w args
  = ({| calls := [(tasks_retrieve, get_field args "taskId")]; console := [] |},
     Fulfilled (VObj [("success", VBool true);
                      ("taskId", get_property task "id");
                      ("status", get_property task "status");
                      ("createdAt", get_property task "createdAt");
                      ("updatedAt", get_property task "updatedAt");
                      ("output", get_property task "output");
                      ("failureReason", get_property task "failureReason");
                      ("model", get_property task "model");
                      ("promptText", get_property task "promptText");
                      ("promptImage", get_property task "promptImage");
                      ("ratio", get_property task "ratio");
                      ("duration", get_property task "duration");
                      ("progress", get_property task "progress");
                      ("estimatedTimeRemaining",
                       get_property task "estimatedTimeRemaining")])).
Proof.
  intros Hk Hid Hr Ht. unfold invoke.
  rewrite (resolved OpGetTaskStatus w args tasks_retrieve task initial
             (task_id_passes _ w args (or_introl eq_refl) Hid) Hk eq_refl Hr).
  cbn [respond_of request_of]. unfold GetTaskStatus.respond, async, try_catch.
  repeat rewrite (bind_GetV_there task _ _ _ Ht). reflexivity.
Qed.

Lemma task_status_is_reported_witness :
  invoke OpGetTaskStatus
    (mock (Some "key") (Resolves (VObj [("id", VStr "task-1"); ("status", VStr "RUNNING");
                                        ("progress", VNum (Num 0))])))
    [("taskId", VStr "task-1")]
  = ({| calls := [(tasks_retrieve, VStr "task-1")]; console := [] |},
     Fulfilled (VObj [("success", VBool true);
                      ("taskId", VStr "task-1");
                      ("status", VStr "RUNNING");
                      ("createdAt", VUndefined);
                      ("updatedAt", VUndefined);
                      ("output", VUndefined);
                      ("failureReason", VUndefined);
                      ("model", VUndefined);
                      ("promptText", VUndefined);
                      ("promptImage", VUndefined);
                      ("ratio", VUndefined);
                      ("duration", VUndefined);
                      ("progress", VNum (Num 0));
                      ("estimatedTimeRemaining", VUndefined)])).
Proof.
  exact (task_status_is_reported
           (mock (Some "key") (Resolves (VObj [("id", VStr "task-1"); ("status", VStr "RUNNING");
                                               ("progress", VNum (Num 0))])))
           [("taskId", VStr "task-1")]
           (VObj [("id", VStr "task-1"); ("status", VStr "RUNNING"); ("progress", VNum (Num 0))])
           eq_refl eq_refl eq_refl eq_refl).
Defined.

(** X4.  [CancelTask], when the vendor answers: the envelope repeats the
    requested [taskId] (not an id of the answer), takes [status] from the
    answer, and sets [canceledAt] to the answer's [canceledAt] when it is
    truthy and to the current time otherwise. *)
Theorem cancellation_is_reported w args answer :
  key_set w -> ToBoolean (get_field args "taskId") = true ->
  vendor w tasks_cancel (get_field args "taskId") = Resolves answer ->
  nullish answer = false ->
  invoke OpCancelTask w args
  = ({| calls := [(tasks_cancel, get_field args "taskId")]; console := [] |},
     Fulfilled (VObj [("success", VBool true);
                      ("taskId", get_field args "taskId");
                      ("status", get_property answer "status");
                      ("message", VStr "Task cancellation requested");
                      ("canceledAt",
                       if ToBoolean (get_property answer "canceledAt")
                       then get_property answer "canceledAt"
                       else VStr (now_ISO w))])).
Proof.
  intros Hk Hid Hr Ht. unfold invoke.
  rewrite (resolved OpCancelTask w args tasks_cancel answer initial
             (task_id_passes _ w args (or_intror eq_refl) Hid) Hk eq_refl Hr).
  cbn [respond_of request_of]. unfold CancelTask.respond, async, try_catch.
  repeat rewrite (bind_GetV_there answer _ _ _ Ht). reflexivity.
Qed.

Lemma cancellation_is_reported_witness :
  invoke OpCancelTask
    (mock (Some "key") (Resolves (VObj [("id", VStr "other-id"); ("status", VStr "CANCELED")])))
    [("taskId", VStr "task-1")]
  = ({| calls := [(tasks_cancel, VStr "task-1")]; console := [] |},
     Fulfilled (VObj [("success", VBool true);
                      ("taskId", VStr "task-1");
                      ("status", VStr "CANCELED");
                      ("message", VStr "Task cancellation requested");
                      ("canceledAt", VStr "2025-01-01T00:00:00.000Z")])).
Proof.
  exact (cancellation_is_reported
           (mock (Some "key") (Resolves (VObj [("id", VStr "other-id"); ("status", VStr "CANCELED")])))
           [("taskId", VStr "task-1")]
           (VObj [("id", VStr "other-id"); ("status", VStr "CANCELED")])
           eq_refl eq_refl eq_refl eq_refl).
Defined.

(** X5.  The required parameters that the handlers test: when such a
    parameter is missing or empty (and, for [promptText] of
    [GenerateVideoFromVideo], [promptVideo] is given), the handler answers
    "<parameter> is required" whatever the credential, with no vendor call
    and nothing on the console. *)
Theorem required_parameters_are_checked op k w args :
  In (op, k) checked ->
  ToBoolean (get_field args k) = false ->
  (k = "promptText" -> ToBoolean (get_field args "promptVideo") = true) ->
  In k (required (definition_of (apiTool_of op)))
  /\ invoke op w args
     = (initial,
        Fulfilled (VObj [("success", VBool false);
                         ("error", VStr (k ++ " is required"))]))
  /\ includes k (k ++ " is required") = true.
Proof.
  intros Hin Hf Hpv. simpl in Hin.
  repeat (destruct Hin as [Hin | Hin]; [injection Hin as <- <-|]); try contradiction.
  all: split; [simpl; auto|]; split; [|reflexivity].
  all: apply rejected_locally; intros s; cbn [validation];
    unfold GenerateVideoFromImage.validate, GenerateVideoFromVideo.validate,
      UpscaleVideo.validate, GetTaskStatus.validate, CancelTask.validate, bind;
    try rewrite (Hpv eq_refl); rewrite Hf; reflexivity.
Qed.

Lemma required_parameters_are_checked_witness :
  In "promptText" (required (definition_of (apiTool_of OpGenerateVideoFromVideo)))
  /\ invoke OpGenerateVideoFromVideo (mock None (Resolves VNull))
       [("promptVideo", VStr "https://cdn.example/in.mp4"); ("promptText", VStr "")]
     = (initial,
        Fulfilled (VObj [("success", VBool false);
                         ("error", VStr "promptText is required")]))
  /\ includes "promptText" "promptText is required" = true.
Proof.
  refine (required_parameters_are_checked OpGenerateVideoFromVideo "promptText"
            (mock None (Resolves VNull))
            [("promptVideo", VStr "https://cdn.example/in.mp4"); ("promptText", VStr "")]
            _ eq_refl (fun _ => eq_refl)).
  simpl. auto.
Defined.

(** X6.  An entry of [referenceImages] that is [null], after entries that
    carry a [uri], makes the check throw: the handler catches the
    [TypeError], writes it on the console and gives the generic answer,
    not the answer that names an index; the vendor is not called. *)
Theorem null_reference_entry_is_generic_failure op w args pre img post :
  op = OpGenerateImageWithReferences
  \/ (op = OpGenerateVideoFromVideo
      /\ ToBoolean (get_field args "promptVideo") = true
      /\ ToBoolean (get_field args "promptText") = true) ->
  get_field args "referenceImages" = VArr (pre ++ img :: post)%list ->
  Forall (fun img => carries_uri img = true) pre ->
  nullish img = true ->
  exists message,
    invoke op w args
    = ({| calls := []; console := [(console_label op, TypeError message)] |},
       Fulfilled (VObj [("success", VBool false);
                        ("error", VStr (generic_message op));
                        ("message", VStr message)])).
Proof.
  intros Hop Hr Hall Hn.
  destruct (check_reference_images_throws w pre img post initial Hall Hn) as [message Hc].
  exists message. unfold invoke.
  destruct Hop as [-> | [-> [Hpv Hpt]]].
  - apply (thrown_locally OpGenerateImageWithReferences w args (TypeError message) initial);
      [simpl; auto | | reflexivity | reflexivity].
    cbn [validation]. unfold GenerateImageWithReferences.validate. rewrite Hr.
    unfold bind. cbn [isArray negb orb get_property String.eqb Ascii.eqb Bool.eqb
                       strict_equals].
    replace (Z.of_nat (List.length (pre ++ img :: post)%list) =? 0)%Z with false
      by (symmetry; apply Z.eqb_neq; rewrite length_app; simpl; lia).
    cbn [when ret]. exact Hc.
  - apply (thrown_locally OpGenerateVideoFromVideo w args (TypeError message) initial);
      [simpl; auto 10 | | reflexivity | reflexivity].
    cbn [validation]. unfold GenerateVideoFromVideo.validate, param.
    rewrite Hpv, Hpt, Hr. unfold bind. cbn [negb when ret].
    rewrite (GetV_there (VArr _)) by reflexivity. unfold ret.
    cbn [get_property String.eqb Ascii.eqb Bool.eqb ToNumber number_lt].
    replace (0 <? Z.of_nat (List.length (pre ++ img :: post)%list))%Z with true
      by (symmetry; apply Z.ltb_lt; rewrite length_app; simpl; lia).
    cbn [when]. exact Hc.
Qed.

Lemma null_reference_entry_is_generic_failure_witness :
  exists message,
    invoke OpGenerateImageWithReferences (mock (Some "key") (Resolves VNull))
      [("promptText", VStr "@a"); ("referenceImages", VArr [reference "u1"; VNull])]
    = ({| calls := [];
          console := [(console_label OpGenerateImageWithReferences, TypeError message)] |},
       Fulfilled (VObj [("success", VBool false);
                        ("error", VStr (generic_message OpGenerateImageWithReferences));
                        ("message", VStr message)])).
Proof.
  refine (null_reference_entry_is_generic_failure OpGenerateImageWithReferences
            (mock (Some "key") (Resolves VNull))
            [("promptText", VStr "@a"); ("referenceImages", VArr [reference "u1"; VNull])]
            [reference "u1"] VNull [] (or_introl eq_refl) eq_refl _ eq_refl).
  repeat constructor.
Defined.

(** X7.  [GenerateVideoFromVideo] called with [referenceImages: null]
    (the default [[]] replaces [undefined] only) gives the generic answer,
    without a vendor call. *)
Theorem null_reference_list_is_generic_failure w args :
  ToBoolean (get_field args "promptVideo") = true ->
  ToBoolean (get_field args "promptText") = true ->
  get_field args "referenceImages" = VNull ->
  exists message,
    invoke OpGenerateVideoFromVideo w args
    = ({| calls := [];
          console := [("Error generating video from video:", TypeError message)] |},
       Fulfilled (VObj [("success", VBool false);
                        ("error", VStr "An error occurred while generating the video from video");
                        ("message", VStr message)])).
Proof.
  intros Hpv Hpt Hr. eexists. unfold invoke.
  apply (thrown_locally OpGenerateVideoFromVideo w args (TypeError _) initial);
    [simpl; auto 10 | | reflexivity | reflexivity].
  cbn [validation]. unfold GenerateVideoFromVideo.validate, param.
  rewrite Hpv, Hpt, Hr. reflexivity.
Qed.

Lemma null_reference_list_is_generic_failure_witness :
  exists message,
    invoke OpGenerateVideoFromVideo (mock (Some "key") (Resolves VNull))
      [("promptVideo", VStr "v"); ("promptText", VStr "t"); ("referenceImages", VNull)]
    = ({| calls := [];
          console := [("Error generating video from video:", TypeError message)] |},
       Fulfilled (VObj [("success", VBool false);
                        ("error", VStr "An error occurred while generating the video from video");
                        ("message", VStr message)])).
Proof.
  exact (null_reference_list_is_generic_failure (mock (Some "key") (Resolves VNull))
           [("promptVideo", VStr "v"); ("promptText", VStr "t"); ("referenceImages", VNull)]
           eq_refl eq_refl eq_refl).
Defined.

(** X8.  A credential that is set to the empty string counts as not set. *)
Theorem empty_credential_is_missing op w args :
  RUNWAY_API_KEY w = Some "" ->
  passes (validation op w args) ->
  invoke op w args
  = (initial,
     Fulfilled (VObj [("success", VBool false);
                      ("error", VStr "RUNWAY_API_KEY environment variable is not set.")])).
Proof.
  intros Hn Hv. unfold invoke.
  destruct op; open_handler; unfold async, try_catch;
    try rewrite (bind_passes _ _ _ Hv);
    unfold process_env_RUNWAY_API_KEY; rewrite Hn; reflexivity.
Qed.

Lemma empty_credential_is_missing_witness :
  invoke OpGenerateImage (mock (Some "") (Resolves VNull)) [("promptText", VStr "a fox")]
  = (initial,
     Fulfilled (VObj [("success", VBool false);
                      ("error", VStr "RUNWAY_API_KEY environment variable is not set.")])).
Proof.
  exact (empty_credential_is_missing OpGenerateImage (mock (Some "") (Resolves VNull))
           [("promptText", VStr "a fox")] eq_refl (fun s => eq_refl)).
Defined.

Ltac schema_cases H k :=
  cbn [find properties definition_of apiTool_of
       GenerateImage.apiTool GenerateImageWithReferences.apiTool
       GenerateVideoFromText.apiTool GenerateVideoFromImage.apiTool
       GenerateVideoFromVideo.apiTool UpscaleVideo.apiTool GetTaskStatus.apiTool
       ListTasks.apiTool CancelTask.apiTool ListTasksUnsupported.apiTool
       list_tasks_definition
       prop prop_enum prop_range prop_array name] in H;
  repeat match type of H with
         | context [String.eqb ?n k] =>
             let E := fresh "E" in
             destruct (String.eqb n k) eqn:E;
             [ apply String.eqb_eq in E; subst k | clear E ]
         end.

(** X9.  The ranges that the schemas declare for [seed] and [duration] are
    not enforced: any value but [undefined] is put unchanged in the
    request of the vendor call. *)
Theorem ranged_values_are_forwarded op w args k lo hi v ep :
  declared_range op k = Some (lo, hi) ->
  k <> "limit" ->
  endpoint_of op = Some ep ->
  get_field args k = v ->
  strict_equals v VUndefined = false ->
  passes (validation op w args) -> key_set w ->
  forwarded k v (vendor_calls op w args).
Proof.
  intros Hd Hl Hep Hg Hv Hp Hk. unfold declared_range in Hd.
  destruct op; try discriminate Hep; schema_cases Hd k; try discriminate Hd;
    try (exfalso; apply Hl; reflexivity);
    (eapply forwarded_dispatched;
     [exact Hp | exact Hk | reflexivity | reflexivity | ]);
    unfold GenerateVideoFromVideo.params;
    params_cases; cbn [own set_field String.eqb Ascii.eqb Bool.eqb];
    try rewrite (param_provided args _ _ v Hg Hv); try rewrite Hg; try reflexivity;
    try (match goal with
         | H : negb (strict_equals (get_field args _) VUndefined) = false |- _ =>
             rewrite Hg, Hv in H; discriminate H
         end).
Qed.

Lemma ranged_values_are_forwarded_witness :
  declared_range OpGenerateVideoFromText "duration" = Some (5, 10)%Z
  /\ forwarded "duration" (VNum (Num 60))
       (vendor_calls OpGenerateVideoFromText
          (mock (Some "key") (Resolves (finished_task (VArr []))))
          [("promptText", VStr "a fox"); ("duration", VNum (Num 60))]).
Proof.
  split; [reflexivity|].
  refine (ranged_values_are_forwarded OpGenerateVideoFromText
            (mock (Some "key") (Resolves (finished_task (VArr []))))
            [("promptText", VStr "a fox"); ("duration", VNum (Num 60))]
            "duration" 5%Z 10%Z (VNum (Num 60)) textToVideo
            eq_refl _ eq_refl eq_refl eq_refl (fun s => eq_refl) eq_refl).
  discriminate.
Defined.

(** X10.  The defaults of the handlers are the defaults of their schemas:
    when a parameter with a declared default is absent, the request
    carries the declared default. *)
Theorem declared_defaults_are_applied op w args k d p :
  declared_default op k = Some d ->
  get_field args k = VUndefined ->
  request_of op w args = VObj p ->
  own k p = Some d.
Proof.
  intros Hd Hg Hr. unfold declared_default in Hd.
  destruct op; schema_cases Hd k; try discriminate Hd;
    cbn [default prop prop_enum prop_range prop_array option_map] in Hd;
    try discriminate Hd; injection Hd as <-;
    cbn [request_of] in Hr; try discriminate Hr; injection Hr as <-;
    unfold GenerateImage.params, GenerateImageWithReferences.params,
      GenerateVideoFromText.params, GenerateVideoFromImage.params,
      GenerateVideoFromVideo.params, UpscaleVideo.params, list_tasks_params,
      add_seed, add_if_truthy, param;
    rewrite Hg;
    repeat match goal with
           | |- context [if ?c then _ else _] => destruct c
           end; reflexivity.
Qed.

Lemma declared_defaults_are_applied_witness :
  own "ratio" (GenerateVideoFromImage.params [("promptImage", VStr "https://cdn.example/in.png")])
  = Some (VStr "1280:720").
Proof.
  exact (declared_defaults_are_applied OpGenerateVideoFromImage
           (mock (Some "key") (Resolves VNull))
           [("promptImage", VStr "https://cdn.example/in.png")]
           "ratio" (VStr "1280:720") _ eq_refl eq_refl eq_refl).
Defined.

(** X11.  The [limit] that [ListTasks] puts in its request is never above
    100 (it is a number at most 100, or [NaN]); the declared minimum of 1
    is not enforced, a limit of 100 or less is kept as it is. *)
Theorem list_limit_is_capped_only_above w args :
  (exists x, own "limit" (list_tasks_params w args) = Some (VNum x)
             /\ (x = NaN \/ exists n, x = Num n /\ (n <= 100)%Z))
  /\ (forall n, get_field args "limit" = VNum (Num n) -> (n <= 100)%Z ->
                own "limit" (list_tasks_params w args) = Some (VNum (Num n)))
  /\ declared_range OpListTasks "limit" = Some (1, 100)%Z.
Proof.
  split; [|split; [|reflexivity]].
  - exists (number_min (ToNumber (coerce w) (param args "limit" (VNum (Num 10)))) (Num 100)).
    split.
    + unfold list_tasks_params. params_cases; reflexivity.
    + destruct (ToNumber (coerce w) (param args "limit" (VNum (Num 10)))) as [|z];
        [left; reflexivity | right; exists (Z.min z 100); split; [reflexivity | lia]].
  - intros n Hn Hle. rewrite (list_tasks_limit w args n Hn).
    rewrite Z.min_l by exact Hle. reflexivity.
Qed.

Lemma list_limit_is_capped_only_above_witness :
  own "limit" (list_tasks_params (mock (Some "key") (Resolves VNull))
                 [("limit", VNum (Num (-5)))])
  = Some (VNum (Num (-5))).
Proof.
  refine (proj1 (proj2 (list_limit_is_capped_only_above
                          (mock (Some "key") (Resolves VNull))
                          [("limit", VNum (Num (-5)))])) (-5)%Z eq_refl _).
  lia.
Defined.

Lemma mapM_summary_throws pre task post s :
  Forall (fun t => nullish t = false) pre -> nullish task = true ->
  exists message,
    mapM ListTasks.summary (pre ++ task :: post)%list s = (s, Throw (TypeError message)).
Proof.
  intros Hpre Hn. induction Hpre as [|x pre Hx _ IH]; cbn [app mapM]; unfold bind.
  - destruct task; try discriminate Hn; eexists; reflexivity.
  - rewrite (summary_there x s Hx). destruct IH as [message IH]. 
    unfold bind in IH. rewrite IH. eauto.
Qed.

(** X12.  [ListTasks] and the shapes of the vendor's answer: without
    [data] the envelope lists no task; with [data] that is not an array, or
    that holds a [null] task, the handler gives the generic answer. *)
Theorem list_answers_are_normalized w args tasks :
  key_set w ->
  vendor w tasks_list (VObj (list_tasks_params w args)) = Resolves tasks ->
  nullish tasks = false ->
  (ToBoolean (get_property tasks "data") = false ->
   result OpListTasks w args
   = Fulfilled (VObj [("success", VBool true);
                      ("tasks", VArr []);
                      ("hasMore", get_property tasks "hasMore");
                      ("nextCursor", get_property tasks "nextCursor");
                      ("total", get_property tasks "total")]))
  /\ (ToBoolean (get_property tasks "data") = true ->
      isArray (get_property tasks "data") = false ->
      exists message,
        result OpListTasks w args
        = Fulfilled (VObj [("success", VBool false);
                           ("error", VStr "An error occurred while listing tasks");
                           ("message", VStr message)]))
  /\ (forall pre task post,
        get_property tasks "data" = VArr (pre ++ task :: post)%list ->
        Forall (fun t => nullish t = false) pre ->
        nullish task = true ->
        exists message,
          result OpListTasks w args
          = Fulfilled (VObj [("success", VBool false);
                             ("error", VStr "An error occurred while listing tasks");
                             ("message", VStr message)])).
Proof.
  intros Hk Hr Ht.
  assert (Hres : forall s, function (apiTool_of OpListTasks) w args s
                 = async (try_catch (ListTasks.respond tasks) list_tasks_catch)
                         (called s tasks_list (VObj (list_tasks_params w args)))).
  { intros s. apply (resolved OpListTasks w args tasks_list tasks s
                       (fun s => eq_refl) Hk eq_refl Hr). }
  unfold result, invoke. rewrite Hres.
  unfold ListTasks.respond, async, try_catch.
  rewrite (bind_GetV_there tasks _ _ _ Ht).
  split; [|split].
  - intros Hd. rewrite Hd. unfold bind at 1. unfold ret at 1.
    repeat rewrite (bind_GetV_there tasks _ _ _ Ht). reflexivity.
  - intros Hd Ha. rewrite Hd.
    destruct (get_property tasks "data"); try discriminate Ha;
      eexists; reflexivity.
  - intros pre task post Hd Hpre Hn. rewrite Hd.
    cbn [ToBoolean ListTasks.array_map]. unfold bind at 1. unfold bind at 1.
    destruct (mapM_summary_throws pre task post
                (called initial tasks_list (VObj (list_tasks_params w args))) Hpre Hn)
      as [message Hm].
    rewrite Hm. exists message. reflexivity.
Qed.

Lemma list_answers_are_normalized_witness :
  result OpListTasks (mock (Some "key") (Resolves (VObj [("hasMore", VBool false)]))) []
  = Fulfilled (VObj [("success", VBool true);
                     ("tasks", VArr []);
                     ("hasMore", VBool false);
                     ("nextCursor", VUndefined);
                     ("total", VUndefined)]).
Proof.
  exact (proj1 (list_answers_are_normalized
                  (mock (Some "key") (Resolves (VObj [("hasMore", VBool false)]))) []
                  (VObj [("hasMore", VBool false)]) eq_refl eq_refl eq_refl) eq_refl).
Defined.

(** X13.  When the vendor answers [null] or [undefined], the handler that
    made the call gives its generic failure answer. *)
Theorem empty_answer_is_generic_failure op w args ep answer :
  endpoint_of op = Some ep ->
  passes (validation op w args) -> key_set w ->
  vendor w ep (request_of op w args) = Resolves answer ->
  nullish answer = true ->
  vendor_calls op w args = [(ep, request_of op w args)]
  /\ exists env,
       result op w args = Fulfilled (VObj env)
       /\ own "success" env = Some (VBool false)
       /\ own "error" env = Some (VStr (generic_message op)).
Proof.
  intros Hep Hv Hk Hr Hn. split.
  - apply (invoke_dispatched op w args ep Hv Hk Hep).
  - unfold result, invoke. rewrite (resolved op w args ep answer initial Hv Hk Hep Hr).
    destruct answer; try discriminate Hn;
      destruct op; try discriminate Hep;
      eexists; (split; [reflexivity|]); split; reflexivity.
Qed.

Lemma empty_answer_is_generic_failure_witness :
  vendor_calls OpGetTaskStatus (mock (Some "key") (Resolves VNull)) [("taskId", VStr "task-1")]
  = [(tasks_retrieve, VStr "task-1")]
  /\ exists env,
       result OpGetTaskStatus (mock (Some "key") (Resolves VNull)) [("taskId", VStr "task-1")]
       = Fulfilled (VObj env)
       /\ own "success" env = Some (VBool false)
       /\ own "error" env = Some (VStr "An error occurred while retrieving the task status").
Proof.
  exact (empty_answer_is_generic_failure OpGetTaskStatus
           (mock (Some "key") (Resolves VNull)) [("taskId", VStr "task-1")]
           tasks_retrieve VNull eq_refl (fun s => eq_refl) eq_refl eq_refl eq_refl).
Defined.

(** X14.  When the vendor client throws [null] or [undefined], the [catch]
    block throws in turn: the promise of the handler is rejected with a
    [TypeError], after the call and one line on the console. *)
Theorem thrown_nothing_escapes op w args ep e :
  endpoint_of op = Some ep ->
  passes (validation op w args) -> key_set w ->
  vendor w ep (request_of op w args) = Rejects e ->
  nullish e = true ->
  exists message,
    invoke op w args
    = ({| calls := [(ep, request_of op w args)]; console := [(console_label op, e)] |},
       Rejected (TypeError message)).
Proof.
  intros Hep Hv Hk Hr Hn. unfold invoke.
  rewrite (rejected op w args ep e initial Hv Hk Hep Hr).
  destruct e; try discriminate Hn;
    destruct op; try discriminate Hep; eexists; reflexivity.
Qed.

Lemma thrown_nothing_escapes_witness :
  exists message,
    invoke OpListTasks (mock (Some "key") (Rejects VUndefined)) []
    = ({| calls := [(tasks_list, VObj [("limit", VNum (Num 10))])];
          console := [("Error listing tasks:", VUndefined)] |},
       Rejected (TypeError message)).
Proof.
  exact (thrown_nothing_escapes OpListTasks (mock (Some "key") (Rejects VUndefined)) []
           tasks_list VUndefined eq_refl (fun s => eq_refl) eq_refl eq_refl eq_refl).
Defined.

Lemma undeclared_differs op k n :
  declared op k = false ->
  In n (map name (properties (definition_of (apiTool_of op)))) -> n <> k.
Proof.
  intros Hd Hin ->. apply in_map_iff in Hin as [p [Hp Hin]].
  assert (declared op k = true); [|congruence].
  unfold declared. apply existsb_exists. exists p. split; [exact Hin|].
  apply String.eqb_eq. exact Hp.
Qed.

(** X15.  A handler reads declared parameters only: setting an argument
    that its schema does not declare changes neither what it returns nor
    what it does. *)
Theorem undeclared_arguments_are_ignored op w args k v s :
  declared op k = false ->
  function (apiTool_of op) w (set_field k v args) s
  = function (apiTool_of op) w args s.
Proof.
  intros Hd. pose proof (undeclared_differs op k) as Hn. specialize (fun n => Hn n Hd).
  destruct op; open_handler;
    unfold GenerateImageWithReferences.validate, GenerateVideoFromImage.validate,
      GenerateVideoFromVideo.validate, UpscaleVideo.validate,
      GetTaskStatus.validate, CancelTask.validate,
      GenerateImage.params, GenerateImageWithReferences.params,
      GenerateVideoFromText.params, GenerateVideoFromImage.params,
      GenerateVideoFromVideo.params, UpscaleVideo.params, list_tasks_params, param;
    repeat match goal with
           | |- context [get_field (set_field k v args) ?n] =>
               rewrite (get_field_set_field_other k n v args)
                 by (apply not_eq_sym; apply not_eq_sym; apply Hn; simpl; auto 20)
           end;
    reflexivity.
Qed.

Lemma undeclared_arguments_are_ignored_witness :
  function (apiTool_of OpUpscaleVideo) (mock (Some "key") (Resolves (finished_task (VArr []))))
    (set_field "ratio" (VStr "16:9") [("promptVideo", VStr "v")]) initial
  = function (apiTool_of OpUpscaleVideo) (mock (Some "key") (Resolves (finished_task (VArr []))))
      [("promptVideo", VStr "v")] initial.
Proof.
  exact (undeclared_arguments_are_ignored OpUpscaleVideo
           (mock (Some "key") (Resolves (finished_task (VArr []))))
           [("promptVideo", VStr "v")] "ratio" (VStr "16:9") initial eq_refl).
Defined.

(** X16.  [GenerateVideoFromVideo] without reference images (absent, or an
    empty list): the checks pass and the request has no [referenceImages]
    entry; [promptVideo] and [promptText] are sent as given. *)
Theorem video_without_references w args :
  ToBoolean (get_field args "promptVideo") = true ->
  ToBoolean (get_field args "promptText") = true ->
  get_field args "referenceImages" = VUndefined
  \/ get_field args "referenceImages" = VArr [] ->
  passes (validation OpGenerateVideoFromVideo w args)
  /\ (key_set w ->
      exists p,
        vendor_calls OpGenerateVideoFromVideo w args = [(videoToVideo, VObj p)]
        /\ own "referenceImages" p = None
        /\ own "promptVideo" p = Some (get_field args "promptVideo")
        /\ own "promptText" p = Some (get_field args "promptText")).
Proof.
  intros Hpv Hpt Hr.
  assert (Hrefs : param args "referenceImages" (VArr []) = VArr [])
    by (unfold param; destruct Hr as [-> | ->]; reflexivity).
  assert (Hv : passes (validation OpGenerateVideoFromVideo w args)).
  { intros s. cbn [validation]. unfold GenerateVideoFromVideo.validate.
    rewrite Hrefs, Hpv, Hpt. reflexivity. }
  split; [exact Hv|]. intros Hk. eexists. split.
  - apply (invoke_dispatched OpGenerateVideoFromVideo w args videoToVideo Hv Hk eq_refl).
  - cbn [request_of]. unfold GenerateVideoFromVideo.params. rewrite Hrefs.
    unfold add_seed.
    destruct (negb (strict_equals (get_field args "seed") VUndefined));
      repeat split; reflexivity.
Qed.

Lemma video_without_references_witness :
  exists p,
    vendor_calls OpGenerateVideoFromVideo
      (mock (Some "key") (Resolves (finished_task (VArr []))))
      [("promptVideo", VStr "v"); ("promptText", VStr "t"); ("referenceImages", VArr [])]
    = [(videoToVideo, VObj p)]
    /\ own "referenceImages" p = None
    /\ own "promptVideo" p = Some (VStr "v")
    /\ own "promptText" p = Some (VStr "t").
Proof.
  exact (proj2 (video_without_references
                  (mock (Some "key") (Resolves (finished_task (VArr []))))
                  [("promptVideo", VStr "v"); ("promptText", VStr "t");
                   ("referenceImages", VArr [])]
                  eq_refl eq_refl (or_intror eq_refl)) eq_refl).
Defined.

(** X17.  For the generation tools, an error of the vendor that is not a
    failed task gives the generic answer with the error's message, after
    one call and one line on the console. *)
Theorem other_errors_are_generic op w args ep e :
  In op generation ->
  endpoint_of op = Some ep ->
  passes (validation op w args) -> key_set w ->
  vendor w ep (request_of op w args) = Rejects e ->
  nullish e = false ->
  strict_equals (get_property e "name") (VStr "TaskFailedError") = false ->
  invoke op w args
  = ({| calls := [(ep, request_of op w args)]; console := [(console_label op, e)] |},
     Fulfilled (VObj [("success", VBool false);
                      ("error", VStr (generic_message op));
                      ("message", get_property e "message")])).
Proof.
  intros Hop Hep Hv Hk Hr He Hn. unfold invoke.
  rewrite (rejected op w args ep e initial Hv Hk Hep Hr).
  rewrite (generation_catch_of op args Hop).
  rewrite (generation_catch_generic _ _ _ e _ He Hn). reflexivity.
Qed.

Lemma other_errors_are_generic_witness :
  invoke OpGenerateImage (mock (Some "key") (Rejects (api_error 429 "Too many requests")))
    [("promptText", VStr "a fox")]
  = ({| calls := [(textToImage, VObj [("model", VStr "gen4_image");
                                      ("promptText", VStr "a fox");
                                      ("ratio", VStr "1920:1080")])];
        console := [("Error generating image:", api_error 429 "Too many requests")] |},
     Fulfilled (VObj [("success", VBool false);
                      ("error", VStr "An error occurred while generating the image");
                      ("message", VStr "Too many requests")])).
Proof.
  refine (other_errors_are_generic OpGenerateImage
            (mock (Some "key") (Rejects (api_error 429 "Too many requests")))
            [("promptText", VStr "a fox")] textToImage
            (api_error 429 "Too many requests")
            _ eq_refl (fun s => eq_refl) eq_refl eq_refl eq_refl eq_refl).
  simpl. auto.
Defined.
